(** * Marconi MongoDB storage controllers

    A shallow embedding of [marconi/storage/mongodb/controllers.py]:
    the queue, message and claim controllers over the two collections
    [queues] and [messages], and the properties of the claim subsystem.

    Conventions of the embedding:
    - a [datetime] is an integer number of seconds ([Z]); adding a
      [timedelta(seconds=ttl)] is integer addition;
    - an [ObjectId] is a natural number ([N]) read as the 96-bit value of
      its twelve bytes, so that the order on ids is the order on [N] and
      the four leading bytes hold the creation time;
    - a collection is the list of its documents in storage order; a [find]
      without [sort] yields the matching documents in that order;
    - every controller method runs in the monad [M] over the [World]: the
      two collections, the clock read by [timeutils.utcnow] and the counter
      behind [objectid.ObjectId()]. *)

From Stdlib Require Import ZArith NArith List String Ascii Bool Lia.
From Stdlib Require Import Sorting.Sorted.
Import ListNotations.
Open Scope Z_scope.

Set Implicit Arguments.

(** ** Values *)

Definition oid := N.

(** An id as a caller passes it: the transport hands strings, the
    controllers also pass [ObjectId]s among themselves. *)
Inductive IdArg :=
| AStr (s : string)
| AOid (o : oid).

(** The operand of an equality match on an id field.  The store compares
    values of different types as different. *)
Inductive value :=
| VNull
| VStr (s : string)
| VOid (o : oid).

(** What a claim's [e] field holds: the date written by [post], [create]
    and [update], or the integer [0] written by [unclaim]. *)
Inductive stamp :=
| SDate (d : Z)
| SInt (i : Z).

(** An opaque user document (queue metadata, message body). *)
Definition Doc := string.
Definition empty_doc : Doc := "{}"%string.

(** ** Exceptions *)

(** Modelled from the spec: the module [marconi.storage.exceptions] is not
    part of the source file.  The error taxonomy of the spec names
    [QueueDoesNotExist], [MessageDoesNotExist], [ClaimDoesNotExist] and
    [ClaimNotPermitted] as kinds of their own beside the generic value
    error, so an [except] clause for one of them catches no other.  The
    remaining constructors are Python's built-in exceptions. *)
Inductive exn :=
| QueueDoesNotExist
| MessageDoesNotExist
| ClaimDoesNotExist
| ClaimNotPermitted
| ValueError
| TypeError
| KeyError
| StopIteration.

Definition exn_eqb (a b : exn) : bool :=
  match a, b with
  | QueueDoesNotExist, QueueDoesNotExist
  | MessageDoesNotExist, MessageDoesNotExist
  | ClaimDoesNotExist, ClaimDoesNotExist
  | ClaimNotPermitted, ClaimNotPermitted
  | ValueError, ValueError
  | TypeError, TypeError
  | KeyError, KeyError
  | StopIteration, StopIteration => true
  | _, _ => false
  end.

Inductive result (A : Type) :=
| Ok (a : A)
| Raise (e : exn).
Arguments Ok {A} a.
Arguments Raise {A} e.

(** ** Documents *)

(** A document of the [queues] collection: [{_id, p, n, m}]. *)
Record QueueDoc := mkQueue {
  q_id : oid;
  q_p : option string;
  q_n : string;
  q_m : Doc
}.

(** The embedded claim [c] of a message: [{id, e, t?}]. *)
Record Claim := mkClaim {
  c_id : option oid;
  c_e : stamp;
  c_t : option Z
}.

(** A document of the [messages] collection:
    [{_id, q, t, e, u, c, b}].  Every write path stores an [ObjectId] in
    [q], a date in [e] and a claim record in [c]. *)
Record MsgDoc := mkMsg {
  m_id : oid;
  m_q : oid;
  m_t : Z;
  m_e : Z;
  m_u : option string;
  m_c : Claim;
  m_b : Doc
}.

Definition set_c (c : Claim) (m : MsgDoc) : MsgDoc :=
  mkMsg (m_id m) (m_q m) (m_t m) (m_e m) (m_u m) c (m_b m).

Definition set_e_t (e t : Z) (m : MsgDoc) : MsgDoc :=
  mkMsg (m_id m) (m_q m) t e (m_u m) (m_c m) (m_b m).

Definition set_m (d : Doc) (q : QueueDoc) : QueueDoc :=
  mkQueue (q_id q) (q_p q) (q_n q) d.

(** ** The world *)

(** [clock_now] is the next reading of [timeutils.utcnow]; after each
    reading the clock advances by the head of [ticks], so time never runs
    backwards.  [oid_counter] feeds the low bytes of fresh ids. *)
Record World := mkWorld {
  queues : list QueueDoc;
  messages : list MsgDoc;
  clock_now : Z;
  ticks : list N;
  oid_counter : N
}.

Definition set_queues (qs : list QueueDoc) (w : World) : World :=
  mkWorld qs (messages w) (clock_now w) (ticks w) (oid_counter w).

Definition set_messages (ms : list MsgDoc) (w : World) : World :=
  mkWorld (queues w) ms (clock_now w) (ticks w) (oid_counter w).

(** ** The monad of controller methods *)

Definition M (A : Type) : Type := World -> result A * World.

Definition ret {A} (a : A) : M A := fun w => (Ok a, w).

Definition raise {A} (e : exn) : M A := fun w => (Raise e, w).

Definition bind {A B} (m : M A) (k : A -> M B) : M B :=
  fun w =>
    match m w with
    | (Ok a, w') => k a w'
    | (Raise e, w') => (Raise e, w')
    end.

(** [try: m except e: h]. *)
Definition try_except {A} (m : M A) (e : exn) (h : M A) : M A :=
  fun w =>
    match m w with
    | (Ok a, w') => (Ok a, w')
    | (Raise e', w') => if exn_eqb e' e then h w' else (Raise e', w')
    end.

Definition lift {A} (r : result A) : M A := fun w => (r, w).

Declare Scope monad_scope.
Delimit Scope monad_scope with monad.
Notation "x <- m ;; k" := (bind m (fun x => k))
  (at level 61, m at next level, right associativity) : monad_scope.
Notation "m ;;; k" := (bind m (fun _ => k))
  (at level 61, right associativity) : monad_scope.
Open Scope monad_scope.

(** [timeutils.utcnow()]. *)
Definition utcnow : M Z :=
  fun w =>
    (Ok (clock_now w),
     mkWorld (queues w) (messages w)
             (clock_now w + Z.of_N (hd 0%N (ticks w)))
             (tl (ticks w)) (oid_counter w)).

(** [objectid.ObjectId()]: the creation time in the leading four bytes,
    a counter below. *)
Definition mint (now : Z) (ctr : N) : oid :=
  (N.shiftl (Z.to_N now) 64 + ctr)%N.

Definition new_ObjectId : M oid :=
  fun w =>
    (Ok (mint (clock_now w) (oid_counter w)),
     mkWorld (queues w) (messages w) (clock_now w) (ticks w)
             (oid_counter w + 1)%N).

(** [utils.oid_utc(oid)]: the creation time held by an id. *)
Definition oid_utc (o : oid) : Z := Z.of_N (N.shiftr o 64).

(** [(now - utils.oid_utc(oid)).seconds]: the seconds component of a
    [timedelta], which Python keeps within one day. *)
Definition age_seconds (now : Z) (o : oid) : Z := (now - oid_utc o) mod 86400.

(** ** Ids and strings *)

Definition hex_val (a : ascii) : option N :=
  let n := N_of_ascii a in
  if ((48 <=? n) && (n <=? 57))%N then Some (n - 48)%N
  else if ((97 <=? n) && (n <=? 102))%N then Some (n - 87)%N
  else if ((65 <=? n) && (n <=? 70))%N then Some (n - 55)%N
  else None.

Fixpoint parse_hex (s : string) (acc : N) : option N :=
  match s with
  | EmptyString => Some acc
  | String a s' =>
      match hex_val a with
      | Some d => parse_hex s' (acc * 16 + d)%N
      | None => None
      end
  end.

(** Modelled from the spec: [utils.to_oid] is not part of the source file.
    It builds an [ObjectId] from its input and raises [ValueError] for a
    malformed id; an [ObjectId] is well formed as it is, a string when it
    is twenty-four hexadecimal digits.  [None] stands for the
    [ValueError]. *)
Definition to_oid (a : IdArg) : option oid :=
  match a with
  | AOid o => Some o
  | AStr s => if (String.length s =? 24)%nat then parse_hex s 0%N else None
  end.

Definition hex_char (d : N) : ascii :=
  if (d <? 10)%N then ascii_of_N (48 + d) else ascii_of_N (87 + d).

Fixpoint hex_digits (k : nat) (n : N) (acc : string) : string :=
  match k with
  | O => acc
  | S k' => hex_digits k' (n / 16)%N (String (hex_char (n mod 16)%N) acc)
  end.

(** [str(oid)]: twenty-four hexadecimal digits. *)
Definition str_oid (o : oid) : string := hex_digits 24 o EmptyString.

(** Python truthiness of an optional string argument ([if marker:],
    [if claim:], [client_uuid]). *)
Definition truthy_str (s : option string) : bool :=
  match s with
  | None => false
  | Some EmptyString => false
  | Some _ => true
  end.

Definition truthy_id (a : option IdArg) : bool :=
  match a with
  | None => false
  | Some (AStr EmptyString) => false
  | Some _ => true
  end.

Definition opt_string_eqb (a b : option string) : bool :=
  match a, b with
  | None, None => true
  | Some x, Some y => String.eqb x y
  | _, _ => false
  end.

Definition opt_oid_eqb (a b : option oid) : bool :=
  match a, b with
  | None, None => true
  | Some x, Some y => N.eqb x y
  | _, _ => false
  end.

(** ** The store *)

(** [cursor.sort(key)], ascending: a stable insertion sort. *)
Fixpoint insert_by {A} (leb : A -> A -> bool) (x : A) (l : list A) : list A :=
  match l with
  | [] => [x]
  | y :: l' => if leb x y then x :: y :: l' else y :: insert_by leb x l'
  end.

Fixpoint sort_by {A} (leb : A -> A -> bool) (l : list A) : list A :=
  match l with
  | [] => []
  | x :: l' => insert_by leb x (sort_by leb l')
  end.

(** [cursor.limit(n)]: the driver reads a limit of [0] as no limit, also
    in [count(with_limit_and_skip=True)]. *)
Definition apply_limit {A} (n : nat) (l : list A) : list A :=
  match n with
  | O => l
  | S _ => firstn n l
  end.

(** [update(spec, {"$set": ...}, multi=False)]: the first matching
    document is rewritten; the flag is [updatedExisting]. *)
Fixpoint update_first {A} (spec : A -> bool) (f : A -> A) (l : list A)
  : list A * bool :=
  match l with
  | [] => ([], false)
  | x :: l' =>
      if spec x then (f x :: l', true)
      else let (r, b) := update_first spec f l' in (x :: r, b)
  end.

(** Type-bracketed comparisons of a stored [c.e] with a date operand:
    a value that is not a date matches neither [$lte] nor [$gt]. *)
Definition stamp_lte (s : stamp) (d : Z) : bool :=
  match s with
  | SDate x => x <=? d
  | SInt _ => false
  end.

Definition stamp_gt (s : stamp) (d : Z) : bool :=
  match s with
  | SDate x => x >? d
  | SInt _ => false
  end.

(** An equality match on the [q] field of a message. *)
Definition q_is (v : value) (m : MsgDoc) : bool :=
  match v with
  | VOid o => N.eqb (m_q m) o
  | _ => false
  end.

(** A lazy cursor over [messages]: the query, the limit and whether
    [sort("_id")] was asked for.  The store sorts before it limits,
    whatever the order of the two calls. *)
Record Cursor := mkCursor {
  cur_spec : MsgDoc -> bool;
  cur_limit : nat;
  cur_sorted : bool
}.

Definition limit (n : nat) (c : Cursor) : Cursor :=
  mkCursor (cur_spec c) n (cur_sorted c).

Definition sort_id (c : Cursor) : Cursor :=
  mkCursor (cur_spec c) (cur_limit c) true.

Definition id_leb (a b : MsgDoc) : bool := (m_id a <=? m_id b)%N.

(** What iterating the cursor yields over the collection [ms]. *)
Definition cursor_exec (c : Cursor) (ms : list MsgDoc) : list MsgDoc :=
  let hits := filter (cur_spec c) ms in
  apply_limit (cur_limit c)
              (if cur_sorted c then sort_by id_leb hits else hits).

Definition iterate (c : Cursor) : M (list MsgDoc) :=
  fun w => (Ok (cursor_exec c (messages w)), w).

(** [cursor.count(with_limit_and_skip)]. *)
Definition count (c : Cursor) (with_limit : bool) : M nat :=
  fun w =>
    (Ok (if with_limit then List.length (cursor_exec c (messages w))
         else List.length (filter (cur_spec c) (messages w))), w).

(** [_col.update(spec, {"$set": ...}, upsert=False, multi=True)["n"]]. *)
Definition col_update (spec : MsgDoc -> bool) (f : MsgDoc -> MsgDoc) : M nat :=
  fun w =>
    (Ok (List.length (filter spec (messages w))),
     set_messages (map (fun m => if spec m then f m else m) (messages w)) w).

(** [_col.remove(spec, w=0)]. *)
Definition col_remove (spec : MsgDoc -> bool) : M unit :=
  fun w =>
    (Ok tt, set_messages (filter (fun m => negb (spec m)) (messages w)) w).

(** [_col.find_one(spec)]. *)
Definition col_find_one (spec : MsgDoc -> bool) : M (option MsgDoc) :=
  fun w => (Ok (find spec (messages w)), w).

(** [_col.insert(docs)]: each document receives a fresh [_id], in order. *)
Fixpoint col_insert (docs : list (oid -> MsgDoc)) : M (list oid) :=
  match docs with
  | [] => ret []
  | d :: ds =>
      o <- new_ObjectId ;;
      (fun w => (Ok tt, set_messages (messages w ++ [d o]) w)) ;;;
      os <- col_insert ds ;;
      ret (o :: os)
  end.

(** ** Queue controller *)

Module QueueController.

Definition spec_pn (project : option string) (name : string)
           (q : QueueDoc) : bool :=
  opt_string_eqb (q_p q) project && String.eqb (q_n q) name.

Definition _get (name : string) (project : option string) : M QueueDoc :=
  fun w =>
    match find (spec_pn project name) (queues w) with
    | Some queue => (Ok queue, w)
    | None => (Raise QueueDoesNotExist, w)
    end.

Definition get_id (name : string) (project : option string) : M oid :=
  queue <- _get name project ;;
  ret (q_id queue).

Definition get (name : string) (project : option string) : M Doc :=
  queue <- _get name project ;;
  ret (q_m queue).

(** The call to the base class's [upsert], which is not part of the
    source file, is taken to leave the store alone. *)
Definition upsert (name : string) (metadata : Doc)
           (project : option string) : M bool :=
  updatedExisting <-
    (fun w =>
       match update_first (spec_pn project name) (set_m metadata)
                          (queues w) with
       | (qs, true) => (Ok true, set_queues qs w)
       | (_, false) =>
           (Ok false,
            mkWorld (queues w
                       ++ [mkQueue (mint (clock_now w) (oid_counter w))
                                   project name metadata])
                    (messages w) (clock_now w) (ticks w)
                    (oid_counter w + 1)%N)
       end) ;;
  ret (negb updatedExisting).

(** One element of the queue listing. *)
Record QueueView := mkQueueView {
  name : string;
  metadata : option Doc
}.

Definition name_leb (a b : QueueDoc) : bool := String.leb (q_n a) (q_n b).

(** The cursor [find(query).limit(limit).sort("n")] of [list]. *)
Definition list_cursor (project : option string) (marker : option string)
           (lim : nat) (qs : list QueueDoc) : list QueueDoc :=
  let query q :=
    opt_string_eqb (q_p q) project
    && (if truthy_str marker
        then match marker with
             | Some mk => String.ltb mk (q_n q)
             | None => true
             end
        else true) in
  apply_limit lim (sort_by name_leb (filter query qs)).

(** The generator [normalizer(cursor)], advanced over the records the
    caller consumes: each record yielded also stores its name in the
    slot [marker_name["next"]], which [slot] threads. *)
Fixpoint normalizer (detailed : bool) (records : list QueueDoc)
         (slot : option string) : list QueueView * option string :=
  match records with
  | [] => ([], slot)
  | rec :: rest =>
      let queue :=
        mkQueueView (q_n rec) (if detailed then Some (q_m rec) else None) in
      let (vs, slot') := normalizer detailed rest (Some (q_n rec)) in
      (queue :: vs, slot')
  end.

(** The second [yield] of [list]: [marker_name["next"]]. *)
Definition next_marker (slot : option string) : result string :=
  match slot with
  | Some n => Ok n
  | None => Raise KeyError
  end.

(** [list], run by a caller that takes the cursor, consumes its first
    [k] records and then asks the generator for the marker. *)
Definition list_ (project : option string) (marker : option string)
           (lim : nat) (detailed : bool) (k : nat)
  : M (list QueueView * string) :=
  fun w =>
    let cursor := list_cursor project marker lim (queues w) in
    let (vs, slot) := normalizer detailed (firstn k cursor) None in
    match next_marker slot with
    | Ok mk => (Ok (vs, mk), w)
    | Raise e => (Raise e, w)
    end.

End QueueController.

(** ** Message controller *)

(** A generator advanced once: it yields a value or it is exhausted. *)
Inductive gen_step (A : Type) :=
| Yield (a : A)
| Return.
Arguments Yield {A} a.
Arguments Return {A}.

(** The [fields] argument of [active]: a dict, a list, or something else
    (with its truthiness). *)
Inductive FieldsArg :=
| FDict (keys : list string)
| FList (keys : list string)
| FOther (truthy : bool).

(** A message as the controllers present it: [{id, age, ttl, body}]. *)
Record MsgView := mkMsgView {
  v_id : string;
  v_age : Z;
  v_ttl : Z;
  v_body : Doc
}.

(** One input message of [post]: [{ttl, body?}]. *)
Record MsgInput := mkMsgInput {
  in_ttl : Z;
  in_body : option Doc
}.

Module MessageController.

Definition _get_queue_id (queue : string) (project : option string)
  : M oid :=
  QueueController.get_id queue project.

Definition oid_or_ValueError (a : IdArg) : M oid :=
  match to_oid a with
  | Some o => ret o
  | None => raise ValueError
  end.

Definition fields_rejected (fields : option FieldsArg) : bool :=
  match fields with
  | None => false
  | Some (FDict _) => false
  | Some (FList _) => false
  | Some (FOther truthy) => truthy
  end.

(** The query of [active]: [q = qid], [e > now], [c.e <= now], and the
    optional conditions on [u] and [_id]. *)
Definition active_spec (q : oid) (now : Z) (not_u : option (option string))
           (after : option oid) (m : MsgDoc) : bool :=
  N.eqb (m_q m) q
  && (m_e m >? now)
  && stamp_lte (c_e (m_c m)) now
  && match not_u with
     | Some u => negb (opt_string_eqb (m_u m) u)
     | None => true
     end
  && match after with
     | Some mk => (mk <? m_id m)%N
     | None => true
     end.

Definition active (queue : IdArg) (marker : option IdArg) (echo : bool)
           (client_uuid : option string) (fields : option FieldsArg)
  : M Cursor :=
  now <- utcnow ;;
  q <- oid_or_ValueError queue ;;
  if fields_rejected fields then raise TypeError
  else
    let not_u :=
      if negb echo && truthy_str client_uuid then Some client_uuid
      else None in
    after <- (if truthy_id marker
              then match marker with
                   | Some mk => o <- oid_or_ValueError mk ;; ret (Some o)
                   | None => ret None
                   end
              else ret None) ;;
    ret (mkCursor (active_spec q now not_u after) 0 false).

(** A message as [claimed] presents it: the view and the claim. *)
Record ClaimedView := mkClaimedView {
  cv_view : MsgView;
  cv_claim : Claim
}.

Definition claimed_spec (q : oid) (claim_id : option oid) (bound : Z)
           (m : MsgDoc) : bool :=
  match claim_id with
  | Some cid => opt_oid_eqb (c_id (m_c m)) (Some cid)
  | None => negb (opt_oid_eqb (c_id (m_c m)) None)
  end
  && stamp_gt (c_e (m_c m)) bound
  && N.eqb (m_q m) q.

(** The hooked cursor is run where it is made: its callers advance it at
    once. *)
Definition claimed (queue : IdArg) (claim_id : option oid)
           (expires : option Z) (lim : option nat)
  : M (list ClaimedView) :=
  bound <- match expires with
           | Some e => ret e
           | None => utcnow
           end ;;
  q <- oid_or_ValueError queue ;;
  let msgs := mkCursor (claimed_spec q claim_id bound) 0 true in
  let msgs := match lim with
              | Some (S n) => limit (S n) msgs
              | _ => msgs
              end in
  now <- utcnow ;;
  docs <- iterate msgs ;;
  ret (map (fun msg =>
              mkClaimedView
                (mkMsgView (str_oid (m_id msg)) (age_seconds now (m_id msg))
                           (m_t msg) (m_b msg))
                (m_c msg))
           docs).

Definition unclaim (claim_id : IdArg) : M unit :=
  match to_oid claim_id with
  | None => ret tt
  | Some cid =>
      col_update (fun m => opt_oid_eqb (c_id (m_c m)) (Some cid))
                 (set_c (mkClaim None (SInt 0) None)) ;;;
      ret tt
  end.

(** The first advance of the generator [list]: up to its first
    [yield], which hands out the hooked cursor (the cursor and the
    [now] its hook closes over). *)
Definition list_open (queue : string) (project : option string)
           (marker : option IdArg) (lim : nat) (echo : bool)
           (client_uuid : option string) : M (gen_step (Cursor * Z)) :=
  r <- try_except
         (qid <- _get_queue_id queue project ;;
          messages <- active (AOid qid) marker echo client_uuid None ;;
          ret (Some messages))
         ValueError
         (ret None) ;;
  match r with
  | None => ret Return
  | Some messages =>
      let messages := sort_id (limit lim messages) in
      now <- utcnow ;;
      ret (Yield (messages, now))
  end.

(** The hook [denormalizer] of [list] over the documents the caller
    consumes: each one also stores its id in the slot
    [marker_id['next']], which [slot] threads. *)
Fixpoint denormalizer (now : Z) (msgs : list MsgDoc) (slot : option oid)
  : list MsgView * option oid :=
  match msgs with
  | [] => ([], slot)
  | msg :: rest =>
      let v := mkMsgView (str_oid (m_id msg)) (age_seconds now (m_id msg))
                         (m_t msg) (m_b msg) in
      let (vs, slot') := denormalizer now rest (Some (m_id msg)) in
      (v :: vs, slot')
  end.

(** The second [yield] of [list]: [str(marker_id['next'])]. *)
Definition next_marker (slot : option oid) : result string :=
  match slot with
  | Some o => Ok (str_oid o)
  | None => Raise KeyError
  end.

(** [list], run by a caller that advances the generator, consumes the
    first [k] messages of the cursor and then advances the generator
    again for the marker. *)
Definition list_ (queue : string) (project : option string)
           (marker : option IdArg) (lim : nat) (echo : bool)
           (client_uuid : option string) (k : nat)
  : M (list MsgView * string) :=
  g <- list_open queue project marker lim echo client_uuid ;;
  match g with
  | Return => raise StopIteration
  | Yield (cursor, now) =>
      docs <- iterate cursor ;;
      let (vs, slot) := denormalizer now (firstn k docs) None in
      mk <- lift (next_marker slot) ;;
      ret (vs, mk)
  end.

Definition get (queue : string) (message_id : IdArg)
           (project : option string) : M MsgView :=
  mid <- match to_oid message_id with
         | Some o => ret o
         | None => raise MessageDoesNotExist
         end ;;
  now <- utcnow ;;
  qid <- _get_queue_id queue project ;;
  message <- col_find_one
               (fun m => N.eqb (m_q m) qid && (m_e m >? now)
                         && N.eqb (m_id m) mid) ;;
  match message with
  | None => raise MessageDoesNotExist
  | Some message =>
      let o := m_id message in
      ret (mkMsgView (str_oid o) (age_seconds now o)
                     (m_t message) (m_b message))
  end.

Definition post (queue : string) (msgs : list MsgInput)
           (client_uuid : option string) (project : option string)
  : M (list string) :=
  qid <- _get_queue_id queue project ;;
  now <- utcnow ;;
  let denormalizer msg :=
    let ttl := in_ttl msg in
    let expires := now + ttl in
    fun o =>
      mkMsg o qid ttl expires client_uuid (mkClaim None (SDate now) None)
            (match in_body msg with
             | Some b => b
             | None => empty_doc
             end) in
  ids <- col_insert (map denormalizer msgs) ;;
  ret (map str_oid ids).

Definition delete (queue : string) (message_id : IdArg)
           (project : option string) (claim : option IdArg) : M unit :=
  try_except
    (match to_oid message_id with
     | None => ret tt
     | Some mid =>
         qid <- _get_queue_id queue project ;;
         if truthy_id claim then
           now <- utcnow ;;
           message <- col_find_one
                        (fun m => N.eqb (m_q m) qid && N.eqb (m_id m) mid
                                  && (m_e m >? now)) ;;
           match message with
           | None => ret tt
           | Some message =>
               match match claim with
                     | Some c => to_oid c
                     | None => None
                     end with
               | None => raise ClaimNotPermitted
               | Some cid =>
                   if opt_oid_eqb (c_id (m_c message)) (Some cid) then
                     match c_e (m_c message) with
                     | SDate e =>
                         if e >? now
                         then col_remove (fun m => N.eqb (m_id m) mid)
                         else raise ClaimNotPermitted
                     | SInt _ => raise TypeError
                     end
                   else raise ClaimNotPermitted
               end
           end
         else
           col_remove (fun m => N.eqb (m_q m) qid && N.eqb (m_id m) mid)
     end)
    QueueDoesNotExist
    (ret tt).

Definition purge_queue (queue : string) (project : option string)
  : M unit :=
  try_except
    (qid <- _get_queue_id queue project ;;
     col_remove (fun m => N.eqb (m_q m) qid))
    QueueDoesNotExist
    (ret tt).

End MessageController.

(** [QueueController.delete]: the messages first, then the queue. *)
Definition queue_delete (name : string) (project : option string) : M unit :=
  MessageController.purge_queue name project ;;;
  (fun w =>
     (Ok tt,
      set_queues
        (filter (fun q => negb (QueueController.spec_pn project name q))
                (queues w)) w)).

(** What [stats] returns:
    [{"actions": 0, "messages": {"claimed": N, "free": M}}]. *)
Record Stats := mkStats {
  st_actions : Z;
  st_claimed : nat;
  st_free : nat
}.

(** Modelled from the spec: [utils.HookedCursor], whose [count] [stats]
    calls on the result of [claimed], is not part of the source file.  The
    counts are those of the [claimed] and [active] enumerations at call
    time: the number of documents each one yields.

    [QueueController.stats]. *)
Definition queue_stats (name : string) (project : option string) : M Stats :=
  qid <- QueueController.get_id name project ;;
  active <- MessageController.active (AOid qid) None false None None ;;
  claimed <- MessageController.claimed (AOid qid) None None None ;;
  free <- count active false ;;
  ret (mkStats 0 (List.length claimed) free).

(** ** Claim controller *)

(** The [metadata] of a claim: its [ttl], when given. *)
Record ClaimMeta := mkClaimMeta {
  meta_ttl : option Z
}.

(** The claim as [get] presents it: [{age, ttl, id}]. *)
Record ClaimView := mkClaimView {
  cl_age : Z;
  cl_ttl : Z;
  cl_id : string
}.

Module ClaimController.

Definition _get_queue_id (queue : string) (project : option string)
  : M oid :=
  QueueController.get_id queue project.

(** [int(metadata.get("ttl", 60))]. *)
Definition ttl_of (metadata : ClaimMeta) : Z :=
  match meta_ttl metadata with
  | Some t => t
  | None => 60
  end.

Definition get (queue : string) (claim_id : IdArg)
           (project : option string) : M (ClaimView * list MsgView) :=
  qid <- _get_queue_id queue project ;;
  now <- utcnow ;;
  cid <- match to_oid claim_id with
         | Some o => ret o
         | None => raise ClaimDoesNotExist
         end ;;
  let age := age_seconds now cid in
  msgs <- MessageController.claimed (AOid qid) (Some cid) (Some now) None ;;
  match msgs with
  | [] => raise ClaimDoesNotExist
  | msg :: _ =>
      let claim := MessageController.cv_claim msg in
      match c_t claim with
      | None => raise KeyError
      | Some t =>
          ret (mkClaimView age t
                           (match c_id claim with
                            | Some o => str_oid o
                            | None => "None"%string
                            end),
               map MessageController.cv_view msgs)
      end
  end.

(** The conditional update of [create]: the candidates whose claim is
    null, or set and expired at [now]. *)
Definition claimable (ids : list oid) (now : Z) (m : MsgDoc) : bool :=
  existsb (N.eqb (m_id m)) ids
  && (opt_oid_eqb (c_id (m_c m)) None
      || (negb (opt_oid_eqb (c_id (m_c m)) None)
          && stamp_lte (c_e (m_c m)) now)).

(** The query of the update that extends the life of the messages of a
    claim: [{"q": q, "e": {"$lt": expires}, "c.id": cid}]. *)
Definition outlived (q : value) (expires : Z) (cid : oid) (m : MsgDoc)
  : bool :=
  q_is q m && (m_e m <? expires) && opt_oid_eqb (c_id (m_c m)) (Some cid).

Definition create (queue : string) (metadata : ClaimMeta)
           (project : option string) (lim : nat)
  : M (string * list MsgView) :=
  qid <- _get_queue_id queue project ;;
  let ttl := ttl_of metadata in
  o <- new_ObjectId ;;
  now <- utcnow ;;
  let expires := now + ttl in
  let meta := mkClaim (Some o) (SDate expires) (Some ttl) in
  msgs <- MessageController.active (AOid qid) None false None
                                   (Some (FDict ["_id"%string])) ;;
  let msgs := sort_id (limit lim msgs) in
  n <- count msgs true ;;
  if (n =? 0)%nat then ret (str_oid o, [])
  else
    docs <- iterate msgs ;;
    let ids := map m_id docs in
    now <- utcnow ;;
    updated <- col_update (claimable ids now) (set_c meta) ;;
    col_update (outlived (VStr queue) expires o) (set_e_t expires ttl) ;;;
    if negb (updated =? 0)%nat then
      r <- get queue (AOid o) project ;;
      ret (str_oid o, snd r)
    else ret (str_oid o, []).

Definition update (queue : string) (claim_id : IdArg)
           (metadata : ClaimMeta) (project : option string) : M unit :=
  cid <- match to_oid claim_id with
         | Some o => ret o
         | None => raise ClaimDoesNotExist
         end ;;
  now <- utcnow ;;
  let ttl := ttl_of metadata in
  let expires := now + ttl in
  if now >? expires then raise ValueError
  else
    qid <- _get_queue_id queue project ;;
    claimed <- MessageController.claimed (AOid qid) (Some cid) (Some now)
                                         (Some 1%nat) ;;
    match claimed with
    | [] => raise ClaimDoesNotExist
    | _ :: _ =>
        let meta := mkClaim (Some cid) (SDate expires) (Some ttl) in
        col_update (fun m => N.eqb (m_q m) qid
                             && opt_oid_eqb (c_id (m_c m)) (Some cid))
                   (set_c meta) ;;;
        col_update (outlived (VOid qid) expires cid)
                   (set_e_t expires ttl) ;;;
        ret tt
    end.

Definition delete (queue : string) (claim_id : IdArg)
           (project : option string) : M unit :=
  MessageController.unclaim claim_id.

End ClaimController.

(** ** Properties of claims *)

(** A message carries a live claim at [now]: [c.id] is set and [c.e] is
    later than [now]. *)
Definition claim_live (now : Z) (m : MsgDoc) : bool :=
  negb (opt_oid_eqb (c_id (m_c m)) None) && stamp_gt (c_e (m_c m)) now.

(** A message carries the claim [cid], live at [now]. *)
Definition carries (cid : oid) (now : Z) (m : MsgDoc) : bool :=
  opt_oid_eqb (c_id (m_c m)) (Some cid) && stamp_gt (c_e (m_c m)) now.

(** The message does not expire before its claim does. *)
Definition outlives_claim (m : MsgDoc) : bool :=
  match c_e (m_c m) with
  | SDate e => m_e m >=? e
  | SInt _ => true
  end.

(** A computation that leaves the messages alone and does not turn the
    clock back. *)
Definition quiet {A} (m : M A) : Prop :=
  forall w : World,
    messages (snd (m w)) = messages w
    /\ clock_now w <= clock_now (snd (m w)).

(** The document [b] found where [a] was is [a] itself if the claim of
    [a] is live at [now]. *)
Definition spared (now : Z) (a b : MsgDoc) : Prop :=
  claim_live now a = true -> b = a.

(** A computation that, started no earlier than [t], does not turn the
    clock back and leaves untouched, place by place, every message whose
    claim is still live when it ends. *)
Definition spares (t : Z) {A} (m : M A) : Prop :=
  forall w : World,
    t <= clock_now w ->
    clock_now w <= clock_now (snd (m w))
    /\ Forall2 (spared (clock_now (snd (m w))))
               (messages w) (messages (snd (m w))).

Definition id_le (a b : MsgDoc) : Prop := (m_id a <= m_id b)%N.

(** The documents come in ascending order of [_id]. *)
Definition ids_ascending (ms : list MsgDoc) : Prop :=
  StronglySorted id_le ms.

(** What iterating the cursor that a call returned yields. *)
Definition yielded (out : result Cursor * World) : list MsgDoc :=
  match fst out with
  | Ok c => cursor_exec c (messages (snd out))
  | Raise _ => []
  end.


(** ** Scenarios *)

Open Scope string_scope.

(** Time passes between two calls. *)
Definition elapse (d : N) (w : World) : World :=
  mkWorld (queues w) (messages w) (clock_now w + Z.of_N d) (ticks w)
          (oid_counter w).

(** An empty store at second 1000. *)
Definition w_empty : World := mkWorld [] [] 1000 [] 0.

(** The queue [fizbit] of the default project. *)
Definition w_queue : World :=
  snd (QueueController.upsert "fizbit" "{}" None w_empty).

(** One message, posted with a time to live of ten seconds. *)
Definition w_posted : World :=
  snd (MessageController.post "fizbit" [mkMsgInput 10 (Some "hello")]
                              (Some "producer") None w_queue).

(** The message claimed at once for sixty seconds. *)
Definition w_claimed : World :=
  snd (ClaimController.create "fizbit" (mkClaimMeta (Some 60)) None 10
                              w_posted).

Definition fizbit_queue : QueueDoc :=
  mkQueue 18446744073709551616000%N None "fizbit" "{}".
Definition fizbit_message : oid := 18446744073709551616001%N.
Definition fizbit_claim : oid := 18446744073709551616002%N.

(** Twenty seconds later the message has expired (it was left with its
    ten seconds) and its claim is still live. *)
Definition w_expired : World := elapse 20 w_claimed.

(** Two messages of one queue stored in the order they reached the store,
    the one with the greater id first: their ids were minted by two
    producers within the same second. *)
Definition w_unordered : World :=
  mkWorld (queues w_queue)
          [mkMsg 18446744073709551616007%N 18446744073709551616000%N 60 1060
                 (Some "producer-b") (mkClaim None (SDate 1000) None) "b";
           mkMsg 18446744073709551616003%N 18446744073709551616000%N 60 1060
                 (Some "producer-a") (mkClaim None (SDate 1000) None) "a"]
          1000 [] 8.

(** Two messages, then two claims of one message each. *)
Definition w_two_posted : World :=
  snd (MessageController.post "fizbit"
         [mkMsgInput 60 (Some "one"); mkMsgInput 60 (Some "two")]
         (Some "producer") None w_queue).

(** The first consumer claims one message, then the second claims one. *)
Definition w_first_claim : World :=
  snd (ClaimController.create "fizbit" (mkClaimMeta (Some 60)) None 1
                              w_two_posted).

Definition w_second_claim : World :=
  snd (ClaimController.create "fizbit" (mkClaimMeta (Some 60)) None 1
                              w_first_claim).

Definition first_claim : oid := 18446744073709551616003%N.
Definition second_claim : oid := 18446744073709551616004%N.

Close Scope string_scope.

(** * Proofs *)

(** ** Running the monad *)

Ltac run := unfold bind, ret, raise, lift, try_except; simpl.

Lemma opt_string_eqb_refl (a : option string) : opt_string_eqb a a = true.
Proof. destruct a; simpl; [apply String.eqb_refl | reflexivity]. Qed.

Lemma opt_oid_eqb_eq (a b : option oid) : opt_oid_eqb a b = true <-> a = b.
Proof.
  destruct a, b; simpl; split; intro H; try discriminate; try reflexivity.
  - apply N.eqb_eq in H. now subst.
  - inversion H. apply N.eqb_refl.
Qed.

Lemma get_id_absent (name : string) (project : option string) (w : World) :
  find (QueueController.spec_pn project name) (queues w) = None ->
  QueueController.get_id name project w = (Raise QueueDoesNotExist, w).
Proof.
  intro H. unfold QueueController.get_id, QueueController._get. run.
  now rewrite H.
Qed.

Lemma get_id_present (name : string) (project : option string) (w : World)
      (q : QueueDoc) :
  find (QueueController.spec_pn project name) (queues w) = Some q ->
  QueueController.get_id name project w = (Ok (q_id q), w).
Proof.
  intro H. unfold QueueController.get_id, QueueController._get. run.
  now rewrite H.
Qed.

(** ** Listing the messages of a queue that does not exist *)

(** C3, amended.  When no queue [(project, queue)] exists, the first
    advance of the generator of message [list] raises [QueueDoesNotExist]
    and leaves the world as it was: the handler around the queue lookup
    catches [ValueError] only.  A caller that consumes the listing sees
    the same error. *)
Theorem list_missing_queue_raises :
  forall (w : World) (queue : string) (project : option string)
         (marker : option IdArg) (lim : nat) (echo : bool)
         (client_uuid : option string) (k : nat),
    find (QueueController.spec_pn project queue) (queues w) = None ->
    MessageController.list_open queue project marker lim echo client_uuid w
    = (Raise QueueDoesNotExist, w)
    /\ MessageController.list_ queue project marker lim echo client_uuid k w
       = (Raise QueueDoesNotExist, w).
Proof.
  intros w queue project marker lim echo client_uuid k H.
  assert (E : MessageController.list_open queue project marker lim echo
                                          client_uuid w
              = (Raise QueueDoesNotExist, w)).
  { unfold MessageController.list_open, MessageController._get_queue_id.
    unfold bind at 1. unfold try_except. unfold bind at 1.
    rewrite (get_id_absent _ _ _ H). reflexivity. }
  split; [exact E |].
  unfold MessageController.list_. unfold bind at 1. now rewrite E.
Qed.

Lemma list_missing_queue_raises_witness :
  MessageController.list_open "nosuch" None None 10 false None w_empty
  = (Raise QueueDoesNotExist, w_empty)
  /\ MessageController.list_ "nosuch" None None 10 false None 5 w_empty
     = (Raise QueueDoesNotExist, w_empty).
Proof.
  apply (list_missing_queue_raises w_empty "nosuch" None None 10 false None 5).
  reflexivity.
Defined.

(** C3 as stated fails: over the empty store the queue [nosuch] does not
    exist, and the listing neither yields a cursor nor ends quietly. *)
Lemma list_missing_queue_not_empty_result :
  find (QueueController.spec_pn None "nosuch") (queues w_empty) = None
  /\ ~ (exists g w',
           MessageController.list_open "nosuch" None None 10 false None
                                       w_empty
           = (Ok g, w')).
Proof.
  split; [reflexivity |].
  intros [g [w' H]]. vm_compute in H. discriminate H.
Qed.

(** The case the handler of [list] is there for: the queue exists and the
    marker is malformed.  The generator then ends without yielding. *)
Lemma list_malformed_marker_ends (w : World) (queue : string)
      (project : option string) (marker : IdArg) (lim : nat) (echo : bool)
      (client_uuid : option string) (q : QueueDoc) :
  find (QueueController.spec_pn project queue) (queues w) = Some q ->
  truthy_id (Some marker) = true ->
  to_oid marker = None ->
  fst (MessageController.list_open queue project (Some marker) lim echo
                                   client_uuid w)
  = Ok Return.
Proof.
  intros Hq Htruthy Hmarker.
  unfold MessageController.list_open, MessageController._get_queue_id.
  unfold bind at 1. unfold try_except. unfold bind at 1.
  rewrite (get_id_present _ _ _ Hq).
  unfold MessageController.active. rewrite Htruthy.
  unfold MessageController.oid_or_ValueError. rewrite Hmarker.
  cbn [to_oid]. run. reflexivity.
Qed.

(** ** Getting a message of a queue that does not exist *)

(** C4, amended.  When no queue [(project, queue)] exists, message [get]
    fails with [QueueDoesNotExist] for a well-formed message id and with
    [MessageDoesNotExist] for a malformed one. *)
Theorem get_missing_queue_raises :
  forall (w : World) (queue : string) (message_id : IdArg)
         (project : option string),
    find (QueueController.spec_pn project queue) (queues w) = None ->
    fst (MessageController.get queue message_id project w)
    = Raise (match to_oid message_id with
             | Some _ => QueueDoesNotExist
             | None => MessageDoesNotExist
             end).
Proof.
  intros w queue message_id project H.
  unfold MessageController.get, MessageController._get_queue_id.
  destruct (to_oid message_id) as [mid |]; [| reflexivity].
  unfold bind at 1. unfold ret at 1. unfold bind at 1. unfold utcnow at 1.
  unfold bind at 1.
  rewrite get_id_absent; [reflexivity | exact H].
Qed.

Lemma get_missing_queue_raises_witness :
  fst (MessageController.get "nosuch" (AStr "0000000000000000000000aa") None
                             w_empty)
  = Raise QueueDoesNotExist.
Proof.
  apply (get_missing_queue_raises w_empty "nosuch"
                                  (AStr "0000000000000000000000aa") None).
  reflexivity.
Defined.

(** C4 as stated fails: the queue [nosuch] does not exist, the id is well
    formed, and [get] does not fail with [MessageDoesNotExist]. *)
Lemma get_missing_queue_not_MessageDoesNotExist :
  find (QueueController.spec_pn None "nosuch") (queues w_empty) = None
  /\ fst (MessageController.get "nosuch" (AStr "0000000000000000000000aa")
                                None w_empty)
     <> Raise MessageDoesNotExist.
Proof.
  split; [reflexivity |]. vm_compute. discriminate.
Qed.

(** ** Upserting a queue *)

Section UpdateFirst.

Variable A : Type.
Variable spec : A -> bool.
Variable f : A -> A.

Lemma update_first_flag (l : list A) :
  snd (update_first spec f l) = existsb spec l.
Proof.
  induction l as [| x l IH]; simpl; [reflexivity |].
  destruct (spec x); simpl; [reflexivity |].
  destruct (update_first spec f l) as [r b]. simpl in *. exact IH.
Qed.

Lemma update_first_miss (l : list A) :
  existsb spec l = false -> update_first spec f l = (l, false).
Proof.
  induction l as [| x l IH]; simpl; intro H; [reflexivity |].
  apply orb_false_iff in H. destruct H as [Hx Hl].
  rewrite Hx, (IH Hl). reflexivity.
Qed.

Hypothesis spec_f : forall x, spec (f x) = spec x.
Hypothesis f_f : forall x, f (f x) = f x.

Lemma update_first_again (l : list A) :
  existsb spec l = true ->
  update_first spec f (fst (update_first spec f l))
  = (fst (update_first spec f l), true).
Proof.
  induction l as [| x l IH]; simpl; intro H; [discriminate |].
  destruct (spec x) eqn:Hx; simpl.
  - rewrite spec_f, Hx, f_f. reflexivity.
  - simpl in H. specialize (IH H).
    destruct (update_first spec f l) as [r b]. simpl in *.
    rewrite Hx, IH. reflexivity.
Qed.

Lemma update_first_appended (l : list A) (q : A) :
  existsb spec l = false -> spec q = true -> f q = q ->
  update_first spec f (l ++ [q]) = (l ++ [q], true).
Proof.
  induction l as [| x l IH]; simpl; intros Hl Hq Hf.
  - rewrite Hq, Hf. reflexivity.
  - apply orb_false_iff in Hl. destruct Hl as [Hx Hl].
    rewrite Hx, (IH Hl Hq Hf). reflexivity.
Qed.

End UpdateFirst.

(** C9.  [upsert] is idempotent: a second call with the same arguments
    leaves the world as the first call left it and returns [false]; the
    first call returns [true] exactly when no queue [(project, name)]
    existed. *)
Theorem upsert_idempotent :
  forall (name : string) (metadata : Doc) (project : option string)
         (w : World),
    let first := QueueController.upsert name metadata project w in
    let second := QueueController.upsert name metadata project (snd first) in
    snd second = snd first
    /\ fst second = Ok false
    /\ fst first
       = Ok (negb (existsb (QueueController.spec_pn project name)
                           (queues w))).
Proof.
  intros name metadata project w.
  set (spec := QueueController.spec_pn project name).
  set (f := set_m metadata).
  assert (spec_f : forall x, spec (f x) = spec x) by reflexivity.
  assert (f_f : forall x, f (f x) = f x) by reflexivity.
  unfold QueueController.upsert. run. fold spec. fold f.
  pose proof (update_first_flag spec f (queues w)) as Hflag.
  destruct (existsb spec (queues w)) eqn:Hex.
  - pose proof (update_first_again spec f spec_f f_f (queues w) Hex) as Hagain.
    destruct (update_first spec f (queues w)) as [qs b]. simpl in *.
    subst b. simpl. rewrite Hagain. simpl.
    repeat split; reflexivity.
  - rewrite (update_first_miss spec f (queues w) Hex). simpl.
    rewrite update_first_appended.
    + simpl. repeat split; reflexivity.
    + exact Hex.
    + unfold spec, QueueController.spec_pn. simpl.
      now rewrite opt_string_eqb_refl, String.eqb_refl.
    + reflexivity.
Qed.

(** ** The marker of an empty listing *)

(** C10.  When the enumeration behind queue [list] or message [list]
    yields no item, consuming the cursor and then asking the generator for
    the next marker raises [KeyError]: the marker slot is only assigned
    when an item is yielded. *)
Theorem empty_listing_marker_KeyError :
  forall (w : World) (project : option string) (name_marker : option string)
         (queue : string) (marker : option IdArg) (lim : nat)
         (detailed echo : bool) (client_uuid : option string) (k : nat),
    (QueueController.list_cursor project name_marker lim (queues w) = [] ->
     QueueController.list_ project name_marker lim detailed k w
     = (Raise KeyError, w))
    /\ (forall (cursor : Cursor) (now : Z) (w' : World),
           MessageController.list_open queue project marker lim echo
                                       client_uuid w
           = (Ok (Yield (cursor, now)), w') ->
           cursor_exec cursor (messages w') = [] ->
           MessageController.list_ queue project marker lim echo client_uuid
                                   k w
           = (Raise KeyError, w')).
Proof.
  intros w project name_marker queue marker lim detailed echo client_uuid k.
  split.
  - intro H. unfold QueueController.list_. rewrite H.
    destruct k; reflexivity.
  - intros cursor now w' Hopen Hexec.
    unfold MessageController.list_. unfold bind at 1. rewrite Hopen.
    unfold bind at 1, iterate. rewrite Hexec.
    destruct k; reflexivity.
Qed.

Lemma empty_listing_marker_KeyError_witness :
  QueueController.list_ (Some "other"%string) None 10 false 10 w_queue
  = (Raise KeyError, w_queue)
  /\ MessageController.list_ "fizbit" None None 10 false None 10 w_queue
     = (Raise KeyError, w_queue).
Proof.
  destruct (empty_listing_marker_KeyError
              w_queue None None "fizbit" None 10 false false None 10)
    as [_ Hm].
  destruct (empty_listing_marker_KeyError
              w_queue (Some "other"%string) None "fizbit" None 10 false false
              None 10)
    as [Hq _].
  split.
  - apply Hq. reflexivity.
  - apply (Hm (mkCursor (MessageController.active_spec
                           18446744073709551616000%N 1000 None None)
                        10 true)
              1000 w_queue); reflexivity.
Defined.

(** ** Deleting a message under a claim *)

(** C5, amended.  Message [delete] with a non-empty claim argument, a
    well-formed message id and an existing queue looks for the message of
    that queue with that id that is not expired.
    - When there is none (the message is absent or expired), it returns
      without error and removes nothing.
    - When the message carries the claim named by the argument and that
      claim's expiration is later than now, it removes the message.
    - When the claim argument is malformed, names another claim than the
      message carries, or names the claim the message carries and that
      claim has expired, it fails with [ClaimNotPermitted] and removes
      nothing. *)
Theorem delete_with_claim :
  forall (w : World) (queue : string) (project : option string)
         (message_id claim : IdArg) (mid : oid) (q : QueueDoc),
    truthy_id (Some claim) = true ->
    to_oid message_id = Some mid ->
    find (QueueController.spec_pn project queue) (queues w) = Some q ->
    let now := clock_now w in
    let target :=
      find (fun m => N.eqb (m_q m) (q_id q) && N.eqb (m_id m) mid
                     && (m_e m >? now))
           (messages w) in
    let out :=
      MessageController.delete queue message_id project (Some claim) w in
    (target = None ->
     fst out = Ok tt /\ messages (snd out) = messages w)
    /\ (forall (m : MsgDoc) (cid : oid) (e : Z),
           target = Some m ->
           to_oid claim = Some cid ->
           c_id (m_c m) = Some cid ->
           c_e (m_c m) = SDate e ->
           e > now ->
           fst out = Ok tt
           /\ messages (snd out)
              = filter (fun m' => negb (N.eqb (m_id m') mid)) (messages w))
    /\ (forall (m : MsgDoc),
           target = Some m ->
           (forall cid : oid,
               to_oid claim = Some cid ->
               c_id (m_c m) = Some cid ->
               exists e : Z, c_e (m_c m) = SDate e /\ e <= now) ->
           fst out = Raise ClaimNotPermitted
           /\ messages (snd out) = messages w).
Proof.
  intros w queue project message_id claim mid q Htruthy Hmid Hq now target out.
  assert (Hout : out
                 = let w1 := snd (utcnow w) in
                   match target with
                   | None => (Ok tt, w1)
                   | Some message =>
                       match to_oid claim with
                       | None => (Raise ClaimNotPermitted, w1)
                       | Some cid =>
                           if opt_oid_eqb (c_id (m_c message)) (Some cid) then
                             match c_e (m_c message) with
                             | SDate e =>
                                 if e >? now
                                 then col_remove
                                        (fun m => N.eqb (m_id m) mid) w1
                                 else (Raise ClaimNotPermitted, w1)
                             | SInt _ => (Raise TypeError, w1)
                             end
                           else (Raise ClaimNotPermitted, w1)
                       end
                   end).
  { unfold out, MessageController.delete, MessageController._get_queue_id.
    rewrite Hmid. unfold try_except. unfold bind at 1.
    rewrite (get_id_present _ _ _ Hq). rewrite Htruthy.
    unfold bind at 1. unfold utcnow at 1. unfold bind at 1.
    unfold col_find_one at 1. cbn [messages snd utcnow clock_now].
    fold now. fold target.
    destruct target as [message |]; [| reflexivity].
    destruct (to_oid claim) as [cid |]; [| reflexivity].
    destruct (opt_oid_eqb (c_id (m_c message)) (Some cid)); [| reflexivity].
    destruct (c_e (m_c message)) as [e | i]; [| reflexivity].
    destruct (e >? now); [| reflexivity].
    unfold col_remove. reflexivity. }
  rewrite Hout. clear Hout. cbn zeta.
  split; [| split].
  - intro Ht. rewrite Ht. split; reflexivity.
  - intros m cid e Ht Hc Hid He Hlive. rewrite Ht, Hc, Hid, He.
    cbn [opt_oid_eqb]. rewrite N.eqb_refl.
    assert (Hgt : (e >? now) = true) by (apply Z.gtb_lt; lia).
    rewrite Hgt. split; reflexivity.
  - intros m Ht Hno. rewrite Ht.
    destruct (to_oid claim) as [cid |]; [| split; reflexivity].
    destruct (opt_oid_eqb (c_id (m_c m)) (Some cid)) eqn:Hid;
      [| split; reflexivity].
    apply opt_oid_eqb_eq in Hid.
    destruct (Hno cid eq_refl Hid) as [e [He Hle]]. rewrite He.
    assert (Hgt : (e >? now) = false).
    { destruct (e >? now) eqn:E; [| reflexivity].
      apply Z.gtb_lt in E. lia. }
    rewrite Hgt. split; reflexivity.
Qed.

Lemma delete_with_claim_witness :
  fst (MessageController.delete "fizbit" (AStr "000003e80000000000000001")
                                None (Some (AStr "000003e80000000000000002"))
                                w_claimed)
  = Ok tt
  /\ messages
       (snd (MessageController.delete
               "fizbit" (AStr "000003e80000000000000001") None
               (Some (AStr "000003e80000000000000002")) w_claimed))
     = [].
Proof.
  destruct (delete_with_claim
              w_claimed "fizbit" None (AStr "000003e80000000000000001")
              (AStr "000003e80000000000000002") (mid := fizbit_message)
              (q := fizbit_queue) eq_refl eq_refl eq_refl)
    as [_ [H _]].
  apply (H (mkMsg fizbit_message 18446744073709551616000%N 10 1010
                  (Some "producer"%string)
                  (mkClaim (Some fizbit_claim) (SDate 1060) (Some 60))
                  "hello"%string)
           fizbit_claim 1060);
    reflexivity.
Defined.

(** C5 as stated fails: the message has expired, its claim is live and is
    the one the caller names, and [delete] returns without error and
    without removing anything instead of failing with
    [ClaimNotPermitted]. *)
Lemma delete_expired_message_not_refused :
  (exists m : MsgDoc,
      messages w_expired = [m]
      /\ m_id m = fizbit_message
      /\ m_e m <= clock_now w_expired
      /\ carries fizbit_claim (clock_now w_expired) m = true)
  /\ MessageController.delete "fizbit" (AStr "000003e80000000000000001") None
                              (Some (AStr "000003e80000000000000002"))
                              w_expired
     = (Ok tt, w_expired).
Proof.
  split.
  - eexists. vm_compute. repeat split; try reflexivity. discriminate.
  - vm_compute. reflexivity.
Qed.

(** ** Renewing a claim with a time to live of zero *)

(** C6, the code at [metadata.ttl = 0].  The test of [update] is
    [now > expires], which [expires = now] passes: no call with a
    well-formed claim id and a time to live of zero raises [ValueError].
    On the claimed message of the scenario the call succeeds and rewrites
    the claim with the expiration [now], so that the claim is no longer
    live. *)
Theorem update_ttl_zero_not_rejected :
  (forall (w : World) (queue : string) (cid : oid) (project : option string),
      fst (ClaimController.update queue (AOid cid) (mkClaimMeta (Some 0))
                                  project w)
      <> Raise ValueError)
  /\ fst (ClaimController.update "fizbit" (AStr "000003e80000000000000002")
                                 (mkClaimMeta (Some 0)) None w_claimed)
     = Ok tt
  /\ map (fun m => (m_c m, claim_live (clock_now w_claimed) m))
         (messages
            (snd (ClaimController.update
                    "fizbit" (AStr "000003e80000000000000002")
                    (mkClaimMeta (Some 0)) None w_claimed)))
     = [(mkClaim (Some fizbit_claim) (SDate (clock_now w_claimed)) (Some 0),
         false)].
Proof.
  split; [| split; vm_compute; reflexivity].
  intros w queue cid project.
  unfold ClaimController.update, ClaimController._get_queue_id,
    ClaimController.ttl_of.
  cbn [to_oid meta_ttl]. unfold bind at 1. unfold ret at 1.
  unfold bind at 1. unfold utcnow at 1.
  rewrite Z.add_0_r.
  assert (Hgt : (clock_now w >? clock_now w) = false).
  { destruct (clock_now w >? clock_now w) eqn:E; [| reflexivity].
    apply Z.gtb_lt in E. lia. }
  rewrite Hgt. unfold bind at 1.
  unfold QueueController.get_id, QueueController._get. unfold bind at 1.
  cbn [queues]. 
  destruct (find (QueueController.spec_pn project queue) (queues w))
    as [q |]; [| cbn; discriminate].
  unfold ret at 1. unfold bind at 1.
  unfold MessageController.claimed. run.
  match goal with
  | |- context [map ?f ?l] => destruct (map f l)
  end; cbn; discriminate.
Qed.

(** ** The message of a fresh claim and its expiration *)

(** C1, the code on a message posted for ten seconds and claimed at once
    for sixty.  The second update of [create] matches [q] against the
    queue name, a string, where the messages hold the queue's id, so it
    matches no message at all.  The claimed message keeps its expiration
    1010 under a live claim that expires at 1060.  The same update in
    [update], which matches [q] against the queue id, extends the
    message to the claim's expiration. *)
Theorem create_leaves_message_expiring_before_claim :
  (forall (queue : string) (expires : Z) (cid : oid) (m : MsgDoc),
      ClaimController.outlived (VStr queue) expires cid m = false)
  /\ fst (ClaimController.create "fizbit" (mkClaimMeta (Some 60)) None 10
                                 w_posted)
     = Ok ("000003e80000000000000002"%string,
           [mkMsgView "000003e80000000000000001" 0 10 "hello"%string])
  /\ map (fun m => (m_e m, m_c m, carries fizbit_claim (clock_now w_claimed) m,
                    outlives_claim m))
         (messages w_claimed)
     = [(1010, mkClaim (Some fizbit_claim) (SDate 1060) (Some 60), true,
         false)]
  /\ map (fun m => (m_e m, m_c m, outlives_claim m))
         (messages
            (snd (ClaimController.update
                    "fizbit" (AOid fizbit_claim) (mkClaimMeta (Some 60)) None
                    w_claimed)))
     = [(1060, mkClaim (Some fizbit_claim) (SDate 1060) (Some 60), true)].
Proof.
  split; [reflexivity |].
  repeat split; vm_compute; reflexivity.
Qed.

(** ** Claiming with a limit of zero *)

Lemma insert_by_length {A} (leb : A -> A -> bool) (x : A) (l : list A) :
  List.length (insert_by leb x l) = S (List.length l).
Proof.
  induction l as [| y l IH]; simpl; [reflexivity |].
  destruct (leb x y); simpl; [reflexivity | now rewrite IH].
Qed.

Lemma sort_by_length {A} (leb : A -> A -> bool) (l : list A) :
  List.length (sort_by leb l) = List.length l.
Proof.
  induction l as [| x l IH]; simpl; [reflexivity |].
  now rewrite insert_by_length, IH.
Qed.

(** C2, the code at [limit = 0].  The cursor reads a limit of zero as no
    limit: it yields as many documents as match.  So the count of
    candidates is not zero and the one active message of the queue is
    claimed: the call returns it and writes its claim field. *)
Theorem create_limit_zero_claims :
  (forall (c : Cursor) (ms : list MsgDoc),
      List.length (cursor_exec (limit 0 c) ms)
      = List.length (filter (cur_spec c) ms))
  /\ map m_c (messages w_posted) = [mkClaim None (SDate 1000) None]
  /\ fst (ClaimController.create "fizbit" (mkClaimMeta (Some 60)) None 0
                                 w_posted)
     = Ok ("000003e80000000000000002"%string,
           [mkMsgView "000003e80000000000000001" 0 10 "hello"%string])
  /\ map m_c
         (messages
            (snd (ClaimController.create "fizbit" (mkClaimMeta (Some 60))
                                         None 0 w_posted)))
     = [mkClaim (Some fizbit_claim) (SDate 1060) (Some 60)].
Proof.
  split.
  - intros c ms. unfold cursor_exec, limit.
    cbn [cur_spec cur_limit cur_sorted apply_limit].
    destruct (cur_sorted c); [apply sort_by_length | reflexivity].
  - repeat split; vm_compute; reflexivity.
Qed.

(** ** The order of the active messages *)

Lemma id_leb_le (a b : MsgDoc) : id_leb a b = true <-> id_le a b.
Proof. unfold id_leb, id_le. apply N.leb_le. Qed.

Lemma id_le_trans : Relations_1.Transitive id_le.
Proof. intros a b c. unfold id_le. lia. Qed.

Lemma insert_by_HdRel (x a : MsgDoc) (l : list MsgDoc) :
  id_le a x -> HdRel id_le a l -> HdRel id_le a (insert_by id_leb x l).
Proof.
  intros Hax Hal. destruct l as [| y l]; simpl.
  - constructor. exact Hax.
  - destruct (id_leb x y); constructor.
    + exact Hax.
    + now inversion Hal.
Qed.

Lemma insert_by_Sorted (x : MsgDoc) (l : list MsgDoc) :
  Sorted id_le l -> Sorted id_le (insert_by id_leb x l).
Proof.
  induction l as [| y l IH]; simpl; intro H.
  - repeat constructor.
  - inversion H as [| ? ? Hl Hy]; subst.
    destruct (id_leb x y) eqn:E.
    + constructor; [exact H |]. constructor. now apply id_leb_le.
    + constructor; [now apply IH |].
      apply insert_by_HdRel; [| exact Hy].
      unfold id_leb in E. apply N.leb_gt in E. unfold id_le. lia.
Qed.

Lemma sort_by_Sorted (l : list MsgDoc) : Sorted id_le (sort_by id_leb l).
Proof.
  induction l as [| x l IH]; simpl; [constructor |].
  now apply insert_by_Sorted.
Qed.

Lemma firstn_subset {A} (n : nat) (l : list A) (y : A) :
  In y (firstn n l) -> In y l.
Proof.
  revert l. induction n as [| n IH]; intros [| x l]; simpl; try tauto.
  intros [E | H]; [now left | right; now apply IH].
Qed.

Lemma firstn_ascending (n : nat) (l : list MsgDoc) :
  ids_ascending l -> ids_ascending (firstn n l).
Proof.
  unfold ids_ascending. revert l.
  induction n as [| n IH]; intros l H; simpl; [constructor |].
  destruct l as [| x l]; [constructor |].
  inversion H as [| ? ? Hl Hx]; subst.
  constructor; [now apply IH |].
  rewrite Forall_forall in *. intros y Hy. apply Hx.
  eapply firstn_subset. exact Hy.
Qed.

Lemma sorted_cursor_ascending (c : Cursor) (ms : list MsgDoc) :
  cur_sorted c = true -> ids_ascending (cursor_exec c ms).
Proof.
  intro Hs. unfold cursor_exec. rewrite Hs.
  assert (H : ids_ascending (sort_by id_leb (filter (cur_spec c) ms))).
  { apply Sorted_StronglySorted; [exact id_le_trans | apply sort_by_Sorted]. }
  unfold apply_limit. destruct (cur_limit c); [exact H |].
  now apply firstn_ascending.
Qed.

(** C8, amended.  The cursor that [active] returns carries neither a sort
    nor a limit: iterated as it is, it yields the matching messages in
    storage order.  Sorted by [_id] and limited, as message [list] and
    claim [create] do before they iterate it, it yields them in ascending
    id order. *)
Theorem active_sorted_by_callers :
  forall (w : World) (queue : IdArg) (marker : option IdArg) (echo : bool)
         (client_uuid : option string) (fields : option FieldsArg)
         (c : Cursor) (w' : World) (n : nat) (ms : list MsgDoc),
    MessageController.active queue marker echo client_uuid fields w
    = (Ok c, w') ->
    cursor_exec c ms = filter (cur_spec c) ms
    /\ ids_ascending (cursor_exec (sort_id (limit n c)) ms).
Proof.
  intros w queue marker echo client_uuid fields c w' n ms H.
  split; [| now apply sorted_cursor_ascending].
  unfold MessageController.active in H.
  unfold bind at 1 in H. unfold utcnow at 1 in H.
  unfold bind at 1 in H. unfold MessageController.oid_or_ValueError at 1 in H.
  destruct (to_oid queue) as [q |]; [| discriminate H].
  unfold ret at 1 in H.
  destruct (MessageController.fields_rejected fields); [discriminate H |].
  unfold bind at 1 in H.
  match type of H with
  | context [match ?m ?w0 with _ => _ end] => destruct (m w0) as [[after |] w1]
  end; [| discriminate H].
  unfold ret in H. inversion H. reflexivity.
Qed.

Lemma active_sorted_by_callers_witness :
  ids_ascending
    (cursor_exec
       (sort_id (limit 10
                   (mkCursor (MessageController.active_spec
                                18446744073709551616000%N 1000 None None)
                             0 false)))
       (messages w_unordered)).
Proof.
  apply (active_sorted_by_callers
           w_unordered (AOid 18446744073709551616000%N) None false None None
           (w' := w_unordered) 10 (messages w_unordered)).
  reflexivity.
Defined.

(** C8 as stated fails: two active messages of one queue are stored with
    the greater id first, and the cursor of [active] yields them in that
    order. *)
Lemma active_not_ascending :
  map m_id
      (yielded (MessageController.active (AOid 18446744073709551616000%N)
                                         None false None None w_unordered))
  = [18446744073709551616007%N; 18446744073709551616003%N]
  /\ ~ ids_ascending
         (yielded (MessageController.active
                     (AOid 18446744073709551616000%N) None false None None
                     w_unordered)).
Proof.
  split; [vm_compute; reflexivity |].
  intro H. vm_compute in H.
  inversion H as [| ? ? _ Hhd]; subst.
  inversion Hhd as [| ? ? Hle _]; subst.
  vm_compute in Hle. apply Hle. reflexivity.
Qed.

(** ** Claims do not overlap *)

Lemma quiet_ret {A} (a : A) : quiet (ret a).
Proof. intro w. simpl. split; [reflexivity | lia]. Qed.

Lemma quiet_raise {A} (e : exn) : quiet (@raise A e).
Proof. intro w. simpl. split; [reflexivity | lia]. Qed.

Lemma quiet_lift {A} (r : result A) : quiet (lift r).
Proof. intro w. simpl. split; [reflexivity | lia]. Qed.

Lemma quiet_utcnow : quiet utcnow.
Proof. intro w. simpl. split; [reflexivity | lia]. Qed.

Lemma quiet_new_ObjectId : quiet new_ObjectId.
Proof. intro w. simpl. split; [reflexivity | lia]. Qed.

Lemma quiet_iterate (c : Cursor) : quiet (iterate c).
Proof. intro w. simpl. split; [reflexivity | lia]. Qed.

Lemma quiet_count (c : Cursor) (b : bool) : quiet (count c b).
Proof. intro w. simpl. split; [reflexivity | lia]. Qed.

Lemma quiet_bind {A B} (m : M A) (k : A -> M B) :
  quiet m -> (forall a, quiet (k a)) -> quiet (bind m k).
Proof.
  intros Hm Hk w. unfold bind. specialize (Hm w).
  destruct (m w) as [[a | e] w1]; simpl in *.
  - destruct Hm as [Hm1 Hm2]. destruct (Hk a w1) as [H1 H2].
    split; [congruence | lia].
  - exact Hm.
Qed.

Lemma quiet_get_id (name : string) (project : option string) :
  quiet (QueueController.get_id name project).
Proof.
  apply quiet_bind; [| intro; apply quiet_ret].
  intro w. unfold QueueController._get.
  destruct (find _ (queues w)); simpl; split; (reflexivity || lia).
Qed.

Lemma quiet_oid_or_ValueError (a : IdArg) :
  quiet (MessageController.oid_or_ValueError a).
Proof.
  unfold MessageController.oid_or_ValueError.
  destruct (to_oid a); [apply quiet_ret | apply quiet_raise].
Qed.

Create HintDb quiet.
#[local] Hint Resolve quiet_ret quiet_raise quiet_lift quiet_utcnow
  quiet_new_ObjectId quiet_iterate quiet_count quiet_get_id
  quiet_oid_or_ValueError : quiet.

Ltac quiet_step :=
  match goal with
  | |- quiet (bind _ _) => apply quiet_bind; [| intro]
  | |- quiet (match ?x with _ => _ end) => destruct x
  | |- quiet _ => solve [auto with quiet]
  end.

Lemma quiet_active (queue : IdArg) (marker : option IdArg) (echo : bool)
      (client_uuid : option string) (fields : option FieldsArg) :
  quiet (MessageController.active queue marker echo client_uuid fields).
Proof. unfold MessageController.active. repeat quiet_step. Qed.

Lemma quiet_claimed (queue : IdArg) (claim_id : option oid)
      (expires : option Z) (lim : option nat) :
  quiet (MessageController.claimed queue claim_id expires lim).
Proof. unfold MessageController.claimed. repeat quiet_step. Qed.

Lemma quiet_claim_get (queue : string) (claim_id : IdArg)
      (project : option string) :
  quiet (ClaimController.get queue claim_id project).
Proof.
  unfold ClaimController.get, ClaimController._get_queue_id.
  pose proof quiet_claimed. repeat quiet_step.
Qed.

Lemma live_earlier (now later : Z) (m : MsgDoc) :
  now <= later -> claim_live later m = true -> claim_live now m = true.
Proof.
  unfold claim_live, stamp_gt. intros Hle H.
  apply andb_true_iff in H. destruct H as [Hid He].
  rewrite Hid. simpl. destruct (c_e (m_c m)) as [x | i]; [| discriminate].
  apply Z.gtb_lt in He. apply Z.gtb_lt. lia.
Qed.

Lemma claimable_rejects_live (ids : list oid) (now : Z) (m : MsgDoc) :
  claim_live now m = true -> ClaimController.claimable ids now m = false.
Proof.
  unfold claim_live, ClaimController.claimable, stamp_gt, stamp_lte.
  intro H. apply andb_true_iff in H. destruct H as [Hid He].
  apply negb_true_iff in Hid. rewrite Hid. simpl.
  destruct (c_e (m_c m)) as [x | i]; [| discriminate].
  apply Z.gtb_lt in He.
  assert (Hx : (x <=? now) = false) by (apply Z.leb_gt; lia).
  rewrite Hx. apply andb_false_r.
Qed.

Lemma carries_live (cid : oid) (now : Z) (m : MsgDoc) :
  carries cid now m = true -> claim_live now m = true.
Proof.
  unfold carries, claim_live. intro H.
  apply andb_true_iff in H. destruct H as [Hid He].
  apply opt_oid_eqb_eq in Hid. rewrite Hid, He. reflexivity.
Qed.

Lemma spared_refl (now : Z) (l : list MsgDoc) : Forall2 (spared now) l l.
Proof. induction l; constructor; [intro; reflexivity | assumption]. Qed.

Lemma spared_trans (t1 t2 : Z) (l1 l2 l3 : list MsgDoc) :
  t1 <= t2 ->
  Forall2 (spared t1) l1 l2 -> Forall2 (spared t2) l2 l3 ->
  Forall2 (spared t2) l1 l3.
Proof.
  intros Hle H12. revert l3.
  induction H12 as [| a b l1 l2 Hab _ IH]; intros l3 H23.
  - inversion H23. constructor.
  - inversion H23 as [| ? c ? l3' Hbc Hrest]; subst.
    constructor; [| now apply IH].
    intro Hlive.
    assert (b = a) by (apply Hab; now apply (live_earlier _ Hle)).
    subst b. now apply Hbc.
Qed.

Lemma spared_In (now : Z) (l l' : list MsgDoc) (m : MsgDoc) :
  Forall2 (spared now) l l' -> In m l -> claim_live now m = true -> In m l'.
Proof.
  induction 1 as [| a b l l' Hab _ IH]; simpl; [tauto |].
  intros [E | Hin] Hlive.
  - subst a. left. now apply Hab.
  - right. now apply IH.
Qed.

Lemma spares_quiet (t : Z) {A} (m : M A) : quiet m -> spares t m.
Proof.
  intros Hq w _. destruct (Hq w) as [Hm Hc].
  split; [exact Hc |]. rewrite Hm. apply spared_refl.
Qed.

Lemma spares_bind (t : Z) {A B} (m : M A) (k : A -> M B) :
  spares t m -> (forall a, spares t (k a)) -> spares t (bind m k).
Proof.
  intros Hm Hk w Ht. unfold bind. specialize (Hm w Ht).
  destruct (m w) as [[a | e] w1]; simpl in *; [| exact Hm].
  destruct Hm as [Hc1 H1].
  destruct (Hk a w1) as [Hc2 H2]; [lia |].
  split; [lia |]. now apply (spared_trans Hc2 H1).
Qed.

Lemma spares_utcnow (t : Z) {B} (k : Z -> M B) :
  (forall now, t <= now -> spares now (k now)) -> spares t (bind utcnow k).
Proof.
  intros Hk w Ht. unfold bind, utcnow.
  set (w1 := mkWorld (queues w) (messages w)
                     (clock_now w + Z.of_N (hd 0%N (ticks w)))
                     (tl (ticks w)) (oid_counter w)).
  assert (Hc : clock_now w <= clock_now w1) by (simpl; lia).
  destruct (Hk (clock_now w) Ht w1 Hc) as [Hc2 H2].
  split; [lia | exact H2].
Qed.

Lemma spares_col_update (now : Z) (spec : MsgDoc -> bool)
      (f : MsgDoc -> MsgDoc) :
  (forall m, claim_live now m = true -> spec m = false) ->
  spares now (col_update spec f).
Proof.
  intros Hspec w Ht. simpl. split; [lia |].
  induction (messages w) as [| a l IH]; simpl; constructor; [| exact IH].
  intro Hlive. rewrite Hspec; [reflexivity |].
  now apply (live_earlier _ Ht).
Qed.

Lemma spares_create (queue : string) (metadata : ClaimMeta)
      (project : option string) (lim : nat) (t : Z) :
  spares t (ClaimController.create queue metadata project lim).
Proof.
  unfold ClaimController.create, ClaimController._get_queue_id.
  apply spares_bind; [apply spares_quiet, quiet_get_id | intro qid].
  apply spares_bind; [apply spares_quiet, quiet_new_ObjectId | intro o].
  apply spares_utcnow. intros now _.
  apply spares_bind; [apply spares_quiet, quiet_active | intro msgs].
  apply spares_bind; [apply spares_quiet, quiet_count | intro n].
  destruct (n =? 0)%nat; [apply spares_quiet, quiet_ret |].
  apply spares_bind; [apply spares_quiet, quiet_iterate | intro docs].
  apply spares_utcnow. intros now2 _.
  apply spares_bind;
    [apply spares_col_update; intros m; apply claimable_rejects_live
    | intro updated].
  apply spares_bind; [apply spares_col_update; reflexivity | intros _].
  destruct (negb (updated =? 0)%nat); [| apply spares_quiet, quiet_ret].
  apply spares_bind; [apply spares_quiet, quiet_claim_get | intro r].
  apply spares_quiet, quiet_ret.
Qed.

(** C7.  Claim [create] never overclaims.  The predicate of its
    conditional update rejects every message whose claim is live,
    whatever candidate ids were selected and whatever the store holds
    when the update runs, so a [create] leaves untouched, place by place,
    every message whose claim is still live when it returns.  For two
    [create] calls in a row and two distinct claim ids [c1] and [c2]:
    the messages that carry [c1] live when the second call returns are
    still in the store as they were, and no message of the store carries
    both [c1] and [c2] live. *)
Theorem create_never_overclaims :
  forall (w : World)
         (queue1 : string) (metadata1 : ClaimMeta) (project1 : option string)
         (lim1 : nat)
         (queue2 : string) (metadata2 : ClaimMeta) (project2 : option string)
         (lim2 : nat)
         (c1 c2 : oid) (now : Z),
    let w1 :=
      snd (ClaimController.create queue1 metadata1 project1 lim1 w) in
    let w2 :=
      snd (ClaimController.create queue2 metadata2 project2 lim2 w1) in
    c1 <> c2 ->
    (forall (ids : list oid) (t : Z) (m : MsgDoc),
        claim_live t m = true -> ClaimController.claimable ids t m = false)
    /\ Forall2 (spared (clock_now w1)) (messages w) (messages w1)
    /\ Forall2 (spared (clock_now w2)) (messages w1) (messages w2)
    /\ (forall m : MsgDoc,
           In m (messages w1) -> carries c1 (clock_now w2) m = true ->
           In m (messages w2))
    /\ (forall m : MsgDoc,
           In m (messages w2) -> carries c1 now m = true ->
           carries c2 now m = false).
Proof.
  intros w queue1 metadata1 project1 lim1 queue2 metadata2 project2 lim2
         c1 c2 now w1 w2 Hne.
  assert (H1 : Forall2 (spared (clock_now w1)) (messages w) (messages w1)).
  { apply (spares_create queue1 metadata1 project1 lim1 (t := clock_now w)).
    lia. }
  assert (H2 : Forall2 (spared (clock_now w2)) (messages w1) (messages w2)).
  { apply (spares_create queue2 metadata2 project2 lim2 (t := clock_now w1)).
    lia. }
  split; [intros ids t m; apply claimable_rejects_live |].
  split; [exact H1 |]. split; [exact H2 |]. split.
  - intros m Hin Hc. eapply spared_In; [exact H2 | exact Hin |].
    eapply carries_live. exact Hc.
  - intros m _ Hc1. unfold carries in *.
    apply andb_true_iff in Hc1. destruct Hc1 as [Hid _].
    apply opt_oid_eqb_eq in Hid.
    destruct (opt_oid_eqb (c_id (m_c m)) (Some c2)) eqn:E; [| reflexivity].
    apply opt_oid_eqb_eq in E. congruence.
Qed.

Lemma create_never_overclaims_witness :
  map (fun m => c_id (m_c m)) (messages w_second_claim)
  = [Some first_claim; Some second_claim]
  /\ Forall2 (spared (clock_now w_second_claim))
             (messages w_first_claim) (messages w_second_claim)
  /\ (forall m : MsgDoc,
         In m (messages w_second_claim) ->
         carries first_claim 1030 m = true ->
         carries second_claim 1030 m = false).
Proof.
  split; [vm_compute; reflexivity |].
  destruct (create_never_overclaims
              w_two_posted "fizbit" (mkClaimMeta (Some 60)) None 1
              "fizbit" (mkClaimMeta (Some 60)) None 1
              (c1 := first_claim) (c2 := second_claim) 1030)
    as [_ [_ [H2 [_ H4]]]].
  - unfold first_claim, second_claim. lia.
  - split; [exact H2 | exact H4].
Defined.

(** * Further properties of the controllers *)

(** ** Lists and the store *)

Lemma find_update_first_hit {A} (spec : A -> bool) (f : A -> A)
      (l : list A) :
  (forall x, spec (f x) = spec x) ->
  existsb spec l = true ->
  exists x, In x l /\ find spec (fst (update_first spec f l)) = Some (f x).
Proof.
  intros Hf. induction l as [| a l IH]; simpl; intro H; [discriminate |].
  destruct (spec a) eqn:Ha; simpl.
  - exists a. rewrite Hf, Ha. split; [now left | reflexivity].
  - simpl in H. destruct (IH H) as [x [Hin Hx]].
    destruct (update_first spec f l) as [r b]. simpl in *.
    rewrite Ha. exists x. split; [now right | exact Hx].
Qed.

Lemma find_appended {A} (spec : A -> bool) (l : list A) (q : A) :
  existsb spec l = false -> spec q = true -> find spec (l ++ [q]) = Some q.
Proof.
  induction l as [| a l IH]; simpl; intros Hl Hq.
  - now rewrite Hq.
  - apply orb_false_iff in Hl. destruct Hl as [Ha Hl].
    rewrite Ha. now apply IH.
Qed.

Lemma find_filter_negb {A} (spec : A -> bool) (l : list A) :
  find spec (filter (fun x => negb (spec x)) l) = None.
Proof.
  induction l as [| a l IH]; simpl; [reflexivity |].
  destruct (spec a) eqn:Ha; simpl; [exact IH | now rewrite Ha].
Qed.

Lemma filter_negb_miss {A} (spec : A -> bool) (l : list A) :
  find spec l = None -> filter (fun x => negb (spec x)) l = l.
Proof.
  induction l as [| a l IH]; simpl; [reflexivity |].
  destruct (spec a) eqn:Ha; simpl; [discriminate |].
  intro H. now rewrite (IH H).
Qed.

Lemma filter_negb_again {A} (spec : A -> bool) (l : list A) :
  filter (fun x => negb (spec x)) (filter (fun x => negb (spec x)) l)
  = filter (fun x => negb (spec x)) l.
Proof.
  induction l as [| a l IH]; simpl; [reflexivity |].
  destruct (spec a) eqn:Ha; simpl; [exact IH |].
  now rewrite Ha, IH.
Qed.

Lemma set_queues_same (w : World) : set_queues (queues w) w = w.
Proof. now destruct w. Qed.

Lemma set_messages_same (w : World) : set_messages (messages w) w = w.
Proof. now destruct w. Qed.

(** ** The queue registry *)

(** X1.  What [upsert] stores, [get] returns: after
    [upsert(name, metadata, project)], whether it created the queue or
    rewrote it, [get(name, project)] is [metadata]. *)
Theorem upsert_then_get :
  forall (name : string) (metadata : Doc) (project : option string)
         (w : World),
    fst (QueueController.get
           name project
           (snd (QueueController.upsert name metadata project w)))
    = Ok metadata.
Proof.
  intros name metadata project w.
  set (spec := QueueController.spec_pn project name).
  set (f := set_m metadata).
  unfold QueueController.upsert, QueueController.get, QueueController._get.
  run. fold spec. fold f.
  pose proof (update_first_flag spec f (queues w)) as Hflag.
  destruct (existsb spec (queues w)) eqn:Hex.
  - destruct (find_update_first_hit spec f (queues w)) as [x [_ Hx]];
      [reflexivity | exact Hex |].
    destruct (update_first spec f (queues w)) as [qs b]. simpl in *.
    subst b. simpl. rewrite Hx. reflexivity.
  - rewrite (update_first_miss spec f (queues w) Hex). simpl.
    rewrite find_appended; [reflexivity | exact Hex |].
    unfold spec, QueueController.spec_pn. simpl.
    now rewrite opt_string_eqb_refl, String.eqb_refl.
Qed.

(** X2.  Deleting an existing queue cascades: the call succeeds, the
    queue can no longer be found, exactly the messages of the queue are
    removed, and the messages of other queues stay in their order. *)
Theorem queue_delete_cascade :
  forall (name : string) (project : option string) (w : World)
         (q : QueueDoc),
    find (QueueController.spec_pn project name) (queues w) = Some q ->
    let out := queue_delete name project w in
    fst out = Ok tt
    /\ fst (QueueController.get name project (snd out))
       = Raise QueueDoesNotExist
    /\ messages (snd out)
       = filter (fun m => negb (N.eqb (m_q m) (q_id q))) (messages w)
    /\ (forall m : MsgDoc, In m (messages (snd out)) -> m_q m <> q_id q).
Proof.
  intros name project w q Hq out.
  assert (Hout : out
                 = (Ok tt,
                    set_queues
                      (filter (fun x => negb (QueueController.spec_pn
                                                project name x))
                              (queues w))
                      (set_messages
                         (filter (fun m => negb (N.eqb (m_q m) (q_id q)))
                                 (messages w)) w))).
  { unfold out, queue_delete, MessageController.purge_queue,
      MessageController._get_queue_id.
    unfold bind at 1. unfold try_except. unfold bind at 1.
    rewrite (get_id_present _ _ _ Hq). reflexivity. }
  rewrite Hout. cbn [fst snd]. split; [reflexivity |]. split; [| split].
  - unfold QueueController.get, QueueController._get. run.
    now rewrite find_filter_negb.
  - reflexivity.
  - cbn [messages set_queues set_messages]. intros m Hin.
    apply filter_In in Hin. destruct Hin as [_ Hm].
    apply negb_true_iff in Hm. now apply N.eqb_neq.
Qed.

Lemma queue_delete_cascade_witness :
  fst (queue_delete "fizbit" None w_claimed) = Ok tt
  /\ fst (QueueController.get "fizbit" None
                              (snd (queue_delete "fizbit" None w_claimed)))
     = Raise QueueDoesNotExist
  /\ messages (snd (queue_delete "fizbit" None w_claimed)) = [].
Proof.
  destruct (queue_delete_cascade "fizbit" None w_claimed (q := fizbit_queue)
                                 eq_refl)
    as [H1 [H2 [H3 _]]].
  split; [exact H1 |]. split; [exact H2 | exact H3].
Defined.



(** X4.  On a queue that does not exist, the operations that remove
    return without error and leave the world as it was: message [delete]
    with or without a claim, [purge_queue], and queue [delete]. *)
Theorem missing_queue_removals_are_noops :
  forall (w : World) (queue : string) (project : option string)
         (message_id : IdArg) (claim : option IdArg),
    find (QueueController.spec_pn project queue) (queues w) = None ->
    MessageController.delete queue message_id project claim w = (Ok tt, w)
    /\ MessageController.purge_queue queue project w = (Ok tt, w)
    /\ queue_delete queue project w = (Ok tt, w).
Proof.
  intros w queue project message_id claim H.
  pose proof (get_id_absent _ _ _ H) as E.
  assert (Hpurge : MessageController.purge_queue queue project w = (Ok tt, w)).
  { unfold MessageController.purge_queue, MessageController._get_queue_id.
    unfold try_except. unfold bind at 1. now rewrite E. }
  split; [| split; [exact Hpurge |]].
  - unfold MessageController.delete, MessageController._get_queue_id.
    unfold try_except.
    destruct (to_oid message_id) as [mid |]; [| reflexivity].
    unfold bind at 1. now rewrite E.
  - unfold queue_delete. unfold bind at 1. rewrite Hpurge.
    rewrite (filter_negb_miss _ _ H). now rewrite set_queues_same.
Qed.

Lemma missing_queue_removals_are_noops_witness :
  MessageController.delete "nosuch" (AStr "000003e80000000000000001") None
                           (Some (AStr "000003e80000000000000002")) w_claimed
  = (Ok tt, w_claimed)
  /\ MessageController.purge_queue "nosuch" None w_claimed = (Ok tt, w_claimed)
  /\ queue_delete "nosuch" None w_claimed = (Ok tt, w_claimed).
Proof.
  apply (missing_queue_removals_are_noops
           w_claimed "nosuch" None (AStr "000003e80000000000000001")
           (Some (AStr "000003e80000000000000002"))).
  reflexivity.
Defined.

(** ** Deleting and releasing *)

Lemma set_messages_twice (l l' : list MsgDoc) (w : World) :
  set_messages l (set_messages l' w) = set_messages l w.
Proof. reflexivity. Qed.

(** X5.  Message [delete] without a claim, on an existing queue and with
    a well-formed id, removes the messages of that queue with that id and
    no other message, whether expired or claimed; a second call changes
    nothing. *)
Theorem delete_without_claim :
  forall (w : World) (queue : string) (project : option string)
         (message_id : IdArg) (claim : option IdArg) (mid : oid)
         (q : QueueDoc),
    truthy_id claim = false ->
    to_oid message_id = Some mid ->
    find (QueueController.spec_pn project queue) (queues w) = Some q ->
    let out := MessageController.delete queue message_id project claim w in
    fst out = Ok tt
    /\ queues (snd out) = queues w
    /\ (forall m : MsgDoc,
           In m (messages (snd out))
           <-> In m (messages w) /\ ~ (m_q m = q_id q /\ m_id m = mid))
    /\ MessageController.delete queue message_id project claim (snd out)
       = (Ok tt, snd out).
Proof.
  intros w queue project message_id claim mid q Hclaim Hmid Hq out.
  set (spec := fun m => N.eqb (m_q m) (q_id q) && N.eqb (m_id m) mid).
  assert (Hdel : forall w0,
             queues w0 = queues w ->
             MessageController.delete queue message_id project claim w0
             = (Ok tt,
                set_messages (filter (fun m => negb (spec m)) (messages w0))
                             w0)).
  { intros w0 Hw0.
    unfold MessageController.delete, MessageController._get_queue_id.
    rewrite Hmid. unfold try_except. unfold bind at 1.
    rewrite (get_id_present queue project w0 (q := q));
      [| now rewrite Hw0].
    rewrite Hclaim. reflexivity. }
  unfold out. rewrite (Hdel w eq_refl). cbn [fst snd].
  split; [reflexivity |]. split; [reflexivity |]. split.
  - intro m. cbn [messages set_messages]. rewrite filter_In.
    unfold spec. rewrite negb_true_iff, andb_false_iff.
    rewrite !N.eqb_neq. split; intros [Hin Hm]; (split; [exact Hin |]).
    + intros [H1 H2]. destruct Hm; contradiction.
    + destruct (N.eq_dec (m_q m) (q_id q)) as [E | E]; [| now left].
      right. intro E2. apply Hm. now split.
  - rewrite Hdel; [| reflexivity]. cbn [messages set_messages].
    now rewrite filter_negb_again.
Qed.

Lemma delete_without_claim_witness :
  fst (MessageController.delete "fizbit" (AStr "000003e80000000000000001")
                                None None w_expired)
  = Ok tt
  /\ queues (snd (MessageController.delete
                    "fizbit" (AStr "000003e80000000000000001") None None
                    w_expired))
     = queues w_expired.
Proof.
  destruct (delete_without_claim
              w_expired "fizbit" None (AStr "000003e80000000000000001") None
              (mid := fizbit_message) (q := fizbit_queue)
              eq_refl eq_refl eq_refl)
    as [H1 [H2 _]].
  split; [exact H1 | exact H2].
Defined.

(** X6.  Claim [delete] releases: for a well-formed claim id, whatever
    the queue and project named (the queue need not exist), the call
    succeeds, afterwards no message of any queue carries that claim id,
    every message that did not carry it is untouched in its place, and a
    second call changes nothing. *)
Theorem claim_delete_releases :
  forall (w : World) (queue : string) (project : option string)
         (claim_id : IdArg) (cid : oid),
    to_oid claim_id = Some cid ->
    let out := ClaimController.delete queue claim_id project w in
    fst out = Ok tt
    /\ (forall m : MsgDoc,
           In m (messages (snd out)) -> c_id (m_c m) <> Some cid)
    /\ Forall2 (fun a b => c_id (m_c a) <> Some cid -> b = a)
               (messages w) (messages (snd out))
    /\ ClaimController.delete queue claim_id project (snd out)
       = (Ok tt, snd out).
Proof.
  intros w queue project claim_id cid Hcid out.
  set (spec := fun m => opt_oid_eqb (c_id (m_c m)) (Some cid)).
  set (g := fun m => if spec m then set_c (mkClaim None (SInt 0) None) m
                     else m).
  assert (Hdel : forall w0,
             ClaimController.delete queue claim_id project w0
             = (Ok tt, set_messages (map g (messages w0)) w0)).
  { intro w0. unfold ClaimController.delete, MessageController.unclaim.
    rewrite Hcid. reflexivity. }
  assert (Hg : forall m, spec (g m) = false).
  { intro m. unfold g. destruct (spec m) eqn:E; [reflexivity | exact E]. }
  unfold out. rewrite Hdel. cbn [fst snd messages set_messages].
  split; [reflexivity |]. split; [| split].
  - intros m Hin. apply in_map_iff in Hin. destruct Hin as [a [Ha _]].
    subst m. intro E. pose proof (Hg a) as Hga. unfold spec in Hga.
    rewrite E in Hga. simpl in Hga. now rewrite N.eqb_refl in Hga.
  - induction (messages w) as [| a l IH]; simpl; constructor; [| exact IH].
    intro Hne. unfold g. destruct (spec a) eqn:E; [| reflexivity].
    apply opt_oid_eqb_eq in E. contradiction.
  - rewrite Hdel. cbn [messages set_messages]. rewrite set_messages_twice.
    f_equal. f_equal. rewrite map_map. apply map_ext.
    intro m. unfold g at 1. now rewrite Hg.
Qed.

Lemma claim_delete_releases_witness :
  fst (ClaimController.delete "nosuch" (AOid fizbit_claim) None w_claimed)
  = Ok tt
  /\ map (fun m => m_c m)
         (messages
            (snd (ClaimController.delete "nosuch" (AOid fizbit_claim) None
                                         w_claimed)))
     = [mkClaim None (SInt 0) None].
Proof.
  destruct (claim_delete_releases
              w_claimed "nosuch" None (AOid fizbit_claim)
              (cid := fizbit_claim) eq_refl)
    as [H1 _].
  split; [exact H1 | reflexivity].
Defined.

(** ** What the listing yields *)

Lemma insert_by_In {A} (leb : A -> A -> bool) (x y : A) (l : list A) :
  In y (insert_by leb x l) <-> y = x \/ In y l.
Proof.
  induction l as [| a l IH]; simpl.
  - intuition congruence.
  - destruct (leb x a); simpl; [intuition congruence |].
    rewrite IH. intuition congruence.
Qed.

Lemma sort_by_In {A} (leb : A -> A -> bool) (y : A) (l : list A) :
  In y (sort_by leb l) <-> In y l.
Proof.
  induction l as [| a l IH]; simpl; [tauto |].
  rewrite insert_by_In, IH. intuition congruence.
Qed.

Lemma apply_limit_subset {A} (n : nat) (l : list A) (y : A) :
  In y (apply_limit n l) -> In y l.
Proof.
  destruct n; simpl; [tauto |]. apply (firstn_subset (S n)).
Qed.

Lemma cursor_exec_In (c : Cursor) (ms : list MsgDoc) (m : MsgDoc) :
  In m (cursor_exec c ms) -> In m ms /\ cur_spec c m = true.
Proof.
  unfold cursor_exec. intro H. apply apply_limit_subset in H.
  apply filter_In.
  destruct (cur_sorted c); [now apply sort_by_In in H | exact H].
Qed.

Lemma cursor_exec_bounded (c : Cursor) (ms : list MsgDoc) :
  (0 < cur_limit c)%nat ->
  (List.length (cursor_exec c ms) <= cur_limit c)%nat.
Proof.
  unfold cursor_exec, apply_limit. intro H.
  destruct (cur_limit c) as [| n]; [lia |]. apply firstn_le_length.
Qed.

(** The cursor [active] returns, when it returns one. *)
Lemma active_inv (queue : IdArg) (marker : option IdArg) (echo : bool)
      (client_uuid : option string) (fields : option FieldsArg)
      (w w' : World) (c : Cursor) :
  MessageController.active queue marker echo client_uuid fields w
  = (Ok c, w') ->
  exists (q : oid) (after : option oid),
    to_oid queue = Some q
    /\ (if truthy_id marker
        then exists mk, marker = Some mk /\ to_oid mk = after
                        /\ after <> None
        else after = None)
    /\ c = mkCursor
             (MessageController.active_spec
                q (clock_now w)
                (if negb echo && truthy_str client_uuid
                 then Some client_uuid else None)
                after)
             0 false
    /\ w' = snd (utcnow w).
Proof.
  unfold MessageController.active. intro H.
  unfold bind at 1 in H. unfold utcnow at 1 in H.
  unfold bind at 1 in H. unfold MessageController.oid_or_ValueError at 1 in H.
  destruct (to_oid queue) as [q |]; [| discriminate H].
  unfold ret at 1 in H.
  destruct (MessageController.fields_rejected fields); [discriminate H |].
  exists q.
  destruct (truthy_id marker) eqn:Ht.
  - destruct marker as [mk |]; [| discriminate Ht].
    unfold MessageController.oid_or_ValueError in H.
    destruct (to_oid mk) as [o |] eqn:Hmk; [| discriminate H].
    exists (Some o). revert H. run. intro H. inversion H.
    repeat split; try reflexivity.
    exists mk. repeat split; [exact Hmk | discriminate].
  - exists None. revert H. run. intro H. inversion H.
    repeat split; reflexivity.
Qed.

(** X7.  A message released by claim [delete] holds the integer [0] in
    [c.e], which no comparison with a date matches: the released message
    stays in the store, and it is yielded neither by [active], whatever
    the arguments and however much later, nor by the query of [claimed].
    Only the conditional update of [create] would accept it. *)
Theorem released_message_is_neither_free_nor_claimed :
  forall (w : World) (queue : string) (project : option string)
         (claim_id : IdArg) (cid : oid) (m : MsgDoc),
    to_oid claim_id = Some cid ->
    In m (messages w) ->
    c_id (m_c m) = Some cid ->
    let w' := snd (ClaimController.delete queue claim_id project w) in
    let m' := set_c (mkClaim None (SInt 0) None) m in
    In m' (messages w')
    /\ (forall (later : N) (qid : IdArg) (marker : option IdArg)
               (echo : bool) (client_uuid : option string)
               (fields : option FieldsArg),
           ~ In m' (yielded (MessageController.active
                               qid marker echo client_uuid fields
                               (elapse later w'))))
    /\ (forall (q : oid) (claim : option oid) (bound : Z),
           MessageController.claimed_spec q claim bound m' = false)
    /\ (forall (ids : list oid) (now : Z),
           In (m_id m) ids -> ClaimController.claimable ids now m' = true).
Proof.
  intros w queue project claim_id cid m Hcid Hin Hm w' m'.
  split; [| split; [| split]].
  - unfold w', ClaimController.delete, MessageController.unclaim.
    rewrite Hcid. cbn [snd col_update bind ret messages set_messages].
    unfold bind, col_update, ret. cbn [snd messages set_messages].
    apply in_map_iff. exists m. split; [| exact Hin].
    rewrite Hm. cbn [opt_oid_eqb]. now rewrite N.eqb_refl.
  - intros later qid marker echo client_uuid fields Hy.
    unfold yielded in Hy.
    destruct (MessageController.active qid marker echo client_uuid fields
                                       (elapse later w'))
      as [[c |] w2] eqn:E; cbn [fst snd] in Hy; [| exact Hy].
    apply active_inv in E. destruct E as [q [after [_ [_ [Hc _]]]]].
    apply cursor_exec_In in Hy. destruct Hy as [_ Hspec].
    subst c. cbn [cur_spec] in Hspec.
    unfold MessageController.active_spec, m' in Hspec.
    cbn [m_c set_c c_e stamp_lte] in Hspec.
    rewrite andb_false_r in Hspec. discriminate Hspec.
  - intros q claim bound. unfold MessageController.claimed_spec, m'.
    cbn [m_c set_c c_e stamp_gt]. now rewrite andb_false_r.
  - intros ids now Hids. unfold ClaimController.claimable, m'.
    cbn [m_c m_id set_c c_id opt_oid_eqb]. rewrite orb_true_l, andb_true_r.
    apply existsb_exists. exists (m_id m). split; [exact Hids |].
    apply N.eqb_refl.
Qed.

Lemma released_message_is_neither_free_nor_claimed_witness :
  In (set_c (mkClaim None (SInt 0) None)
            (mkMsg fizbit_message 18446744073709551616000%N 10 1010
                   (Some "producer"%string)
                   (mkClaim (Some fizbit_claim) (SDate 1060) (Some 60))
                   "hello"%string))
     (messages
        (snd (ClaimController.delete "fizbit" (AOid fizbit_claim) None
                                     w_claimed)))
  /\ MessageController.claimed_spec
       18446744073709551616000%N None 0
       (set_c (mkClaim None (SInt 0) None)
              (mkMsg fizbit_message 18446744073709551616000%N 10 1010
                     (Some "producer"%string)
                     (mkClaim (Some fizbit_claim) (SDate 1060) (Some 60))
                     "hello"%string))
     = false.
Proof.
  destruct (released_message_is_neither_free_nor_claimed
              w_claimed "fizbit" None (AOid fizbit_claim)
              (cid := fizbit_claim)
              (mkMsg fizbit_message 18446744073709551616000%N 10 1010
                     (Some "producer"%string)
                     (mkClaim (Some fizbit_claim) (SDate 1060) (Some 60))
                     "hello"%string)
              eq_refl)
    as [H1 [_ [H3 _]]].
  - vm_compute. left. reflexivity.
  - reflexivity.
  - split; [exact H1 | apply H3].
Defined.

(** The cursor the generator of [list] hands out, when it hands out
    one. *)
Lemma list_open_inv (queue : string) (project : option string)
      (marker : option IdArg) (lim : nat) (echo : bool)
      (client_uuid : option string) (w w' : World) (q : QueueDoc)
      (cursor : Cursor) (now : Z) :
  find (QueueController.spec_pn project queue) (queues w) = Some q ->
  MessageController.list_open queue project marker lim echo client_uuid w
  = (Ok (Yield (cursor, now)), w') ->
  exists (c : Cursor) (w1 : World),
    MessageController.active (AOid (q_id q)) marker echo client_uuid None w
    = (Ok c, w1)
    /\ cursor = sort_id (limit lim c)
    /\ now = clock_now w1
    /\ w' = snd (utcnow w1).
Proof.
  intros Hq H.
  unfold MessageController.list_open, MessageController._get_queue_id in H.
  unfold bind at 1 in H. unfold try_except in H. unfold bind at 1 in H.
  rewrite (get_id_present _ _ _ Hq) in H. unfold bind at 1 in H.
  destruct (MessageController.active (AOid (q_id q)) marker echo client_uuid
                                     None w)
    as [[c | e] w1].
  - exists c, w1. revert H. run. intro H. inversion H.
    repeat split; reflexivity.
  - destruct (exn_eqb e ValueError); revert H; run; intro H; discriminate H.
Qed.

(** X11.  Every message that the cursor of message [list] yields,
    whatever the store holds when it is iterated, belongs to the queue,
    had not expired when [list] was called, carries a claim expiration
    that is a date not later than that instant, is not one of the
    caller's own when echo is off, and has an id above the marker; a
    positive limit bounds the number of messages yielded. *)
Theorem list_yields_only_active :
  forall (w w' : World) (queue : string) (project : option string)
         (marker : option IdArg) (lim : nat) (echo : bool)
         (client_uuid : option string) (q : QueueDoc) (cursor : Cursor)
         (now : Z) (ms : list MsgDoc),
    find (QueueController.spec_pn project queue) (queues w) = Some q ->
    MessageController.list_open queue project marker lim echo client_uuid w
    = (Ok (Yield (cursor, now)), w') ->
    (forall m : MsgDoc,
        In m (cursor_exec cursor ms) ->
        In m ms
        /\ m_q m = q_id q
        /\ clock_now w < m_e m
        /\ (exists d : Z, c_e (m_c m) = SDate d /\ d <= clock_now w)
        /\ (echo = false -> truthy_str client_uuid = true ->
            m_u m <> client_uuid)
        /\ (forall (mk : IdArg) (o : oid),
               marker = Some mk -> truthy_id marker = true ->
               to_oid mk = Some o -> (o < m_id m)%N))
    /\ ((0 < lim)%nat -> (List.length (cursor_exec cursor ms) <= lim)%nat).
Proof.
  intros w w' queue project marker lim echo client_uuid q cursor now ms
         Hq Hopen.
  eapply list_open_inv in Hopen; [| exact Hq].
  destruct Hopen as [c [w1 [Hact [Hc _]]]].
  apply active_inv in Hact.
  destruct Hact as [qid [after [Hqid [Hafter [Hcur _]]]]].
  cbn [to_oid] in Hqid. inversion Hqid. subst qid. subst c cursor.
  split.
  - intros m Hin. apply cursor_exec_In in Hin. destruct Hin as [Hin Hspec].
    cbn [cur_spec sort_id limit] in Hspec.
    unfold MessageController.active_spec in Hspec.
    repeat (apply andb_true_iff in Hspec; destruct Hspec as [Hspec ?]).
    split; [exact Hin |]. split; [now apply N.eqb_eq |].
    split; [apply Z.gtb_lt; assumption |]. split; [| split].
    + unfold stamp_lte in *. destruct (c_e (m_c m)) as [d | i];
        [| discriminate].
      exists d. split; [reflexivity | now apply Z.leb_le].
    + intros He Hu. subst echo. rewrite Hu in *. cbn [negb andb] in *.
      intro E. rewrite E in *.
      rewrite opt_string_eqb_refl in *. discriminate.
    + intros mk o Hmk Ht Ho. rewrite Ht in Hafter.
      destruct Hafter as [mk' [Hmk' [Hto _]]].
      rewrite Hmk in Hmk'. inversion Hmk'. subst mk'.
      rewrite Ho in Hto. subst after. now apply N.ltb_lt.
  - intro Hlim. apply cursor_exec_bounded. exact Hlim.
Qed.

Lemma list_yields_only_active_witness :
  (List.length
     (cursor_exec
        (sort_id (limit 10
                    (mkCursor (MessageController.active_spec
                                 18446744073709551616000%N 1000
                                 (Some (Some "consumer"%string)) None)
                              0 false)))
        (messages w_posted))
   <= 10)%nat.
Proof.
  destruct (list_yields_only_active
              w_posted (w' := w_posted) "fizbit" None None 10 false
              (Some "consumer"%string) (q := fizbit_queue)
              (cursor := sort_id
                           (limit 10
                              (mkCursor (MessageController.active_spec
                                           18446744073709551616000%N 1000
                                           (Some (Some "consumer"%string))
                                           None)
                                        0 false)))
              (now := 1000) (messages w_posted) eq_refl eq_refl)
    as [_ H].
  apply H. lia.
Defined.

(** ** The next marker *)

Lemma last_of_somes {A B C} (f : A -> B) (g : B -> C) (l : list A) (o : B)
      (d : C) :
  last (map (fun a => Some (f a)) l) None = Some o ->
  last (map (fun a => g (f a)) l) d = g o.
Proof.
  induction l as [| a l IH]; [discriminate |].
  destruct l as [| b l].
  - simpl. intro H. inversion H. reflexivity.
  - intro H. change (last (map (fun a => g (f a)) (b :: l)) d = g o).
    apply IH. exact H.
Qed.

Lemma last_default {A} (l : list A) (a d d' : A) :
  last (a :: l) d = last (a :: l) d'.
Proof.
  revert a. induction l as [| b l IH]; intro a; [reflexivity |].
  change (last (b :: l) d = last (b :: l) d'). apply IH.
Qed.

Lemma denormalizer_views (now : Z) (msgs : list MsgDoc) (slot : option oid) :
  map v_id (fst (MessageController.denormalizer now msgs slot))
  = map (fun m => str_oid (m_id m)) msgs.
Proof.
  revert slot. induction msgs as [| m msgs IH]; intro slot; simpl;
    [reflexivity |].
  specialize (IH (Some (m_id m))).
  destruct (MessageController.denormalizer now msgs (Some (m_id m))).
  simpl in *. now rewrite IH.
Qed.

Lemma denormalizer_slot (now : Z) (msgs : list MsgDoc) (slot : option oid) :
  snd (MessageController.denormalizer now msgs slot)
  = last (map (fun m => Some (m_id m)) msgs) slot.
Proof.
  revert slot. induction msgs as [| m msgs IH]; intro slot; [reflexivity |].
  simpl MessageController.denormalizer.
  specialize (IH (Some (m_id m))).
  destruct (MessageController.denormalizer now msgs (Some (m_id m)))
    as [vs slot'].
  simpl in IH. simpl snd. rewrite IH.
  destruct msgs as [| m2 msgs]; [reflexivity |].
  change (last (map (fun m => Some (m_id m)) (m2 :: msgs)) (Some (m_id m))
          = last (map (fun m => Some (m_id m)) (m2 :: msgs)) slot).
  apply last_default.
Qed.

(** X12.  When a caller of message [list] consumes [k] messages and the
    generator then hands out a marker, at least one message was consumed,
    no more than [k], and the marker is the id of the last message
    consumed, as a string. *)
Theorem list_marker_is_last_id :
  forall (w w' : World) (queue : string) (project : option string)
         (marker : option IdArg) (lim : nat) (echo : bool)
         (client_uuid : option string) (k : nat) (vs : list MsgView)
         (mk : string),
    MessageController.list_ queue project marker lim echo client_uuid k w
    = (Ok (vs, mk), w') ->
    vs <> []
    /\ (List.length vs <= k)%nat
    /\ mk = last (map v_id vs) EmptyString.
Proof.
  intros w w' queue project marker lim echo client_uuid k vs mk H.
  unfold MessageController.list_ in H. unfold bind at 1 in H.
  destruct (MessageController.list_open queue project marker lim echo
                                        client_uuid w)
    as [[[[cursor now] |] | e] w1]; try discriminate H.
  unfold bind at 1, iterate at 1 in H.
  set (docs := firstn k (cursor_exec cursor (messages w1))) in *.
  pose proof (denormalizer_views now docs None) as Hviews.
  pose proof (denormalizer_slot now docs None) as Hslot.
  destruct (MessageController.denormalizer now docs None) as [vs0 slot].
  cbn [fst snd] in Hviews, Hslot.
  unfold MessageController.next_marker in H.
  destruct slot as [o |]; revert H; run; intro H; [| discriminate H].
  inversion H. subst vs0 mk w1. clear H.
  assert (Hlen : List.length vs = List.length docs).
  { rewrite <- (length_map v_id), Hviews. apply length_map. }
  split; [| split].
  - intro E. subst vs. destruct docs; [discriminate Hslot | discriminate Hlen].
  - rewrite Hlen. unfold docs. apply firstn_le_length.
  - rewrite Hviews. symmetry.
    apply (last_of_somes m_id str_oid). now symmetry.
Qed.

Lemma list_marker_is_last_id_witness :
  [mkMsgView "000003e80000000000000001" 0 10 "hello"%string] <> []
  /\ (List.length
        [mkMsgView "000003e80000000000000001" 0 10 "hello"%string] <= 5)%nat
  /\ "000003e80000000000000001"%string
     = last (map v_id
                 [mkMsgView "000003e80000000000000001" 0 10 "hello"%string])
            EmptyString.
Proof.
  apply (list_marker_is_last_id
           w_posted (w' := w_posted) "fizbit" None None 10 false None 5).
  vm_compute. reflexivity.
Defined.

(** ** Ids as strings *)





(** ** Posting and getting messages *)

(** X10.  What message [get] returns is in the store: when it succeeds,
    the id is well formed, the queue exists, and the view shows the time
    to live and the body of a stored message with that id, of that queue,
    that had not expired when [get] read the clock; the collections are
    left as they were. *)
Theorem get_returns_stored_message :
  forall (w w' : World) (queue : string) (message_id : IdArg)
         (project : option string) (v : MsgView),
    MessageController.get queue message_id project w = (Ok v, w') ->
    exists (q : QueueDoc) (m : MsgDoc),
      find (QueueController.spec_pn project queue) (queues w) = Some q
      /\ to_oid message_id = Some (m_id m)
      /\ In m (messages w)
      /\ m_q m = q_id q
      /\ clock_now w < m_e m
      /\ v = mkMsgView (str_oid (m_id m)) (age_seconds (clock_now w) (m_id m))
                       (m_t m) (m_b m)
      /\ messages w' = messages w
      /\ queues w' = queues w.
Proof.
  intros w w' queue message_id project v H.
  unfold MessageController.get, MessageController._get_queue_id in H.
  destruct (to_oid message_id) as [mid |]; [| discriminate H].
  unfold bind at 1 in H. unfold ret at 1 in H.
  unfold bind at 1 in H. unfold utcnow at 1 in H.
  unfold bind at 1 in H.
  unfold QueueController.get_id, QueueController._get in H.
  unfold bind at 1 in H. cbn [queues] in H.
  destruct (find (QueueController.spec_pn project queue) (queues w))
    as [q |] eqn:Hq; [| discriminate H].
  unfold ret at 1 in H. unfold bind at 1 in H.
  unfold col_find_one at 1 in H. cbn [messages] in H.
  match type of H with
  | context [find ?p (messages w)] =>
      destruct (find p (messages w)) as [m |] eqn:Hm
  end; [| discriminate H].
  apply find_some in Hm. destruct Hm as [Hin Hspec].
  apply andb_true_iff in Hspec. destruct Hspec as [Hspec Hid].
  apply andb_true_iff in Hspec. destruct Hspec as [Hmq He].
  apply N.eqb_eq in Hid. apply N.eqb_eq in Hmq. apply Z.gtb_lt in He.
  unfold ret in H. inversion H. subst mid.
  exists q, m. repeat split; try reflexivity; assumption.
Qed.

Lemma get_returns_stored_message_witness :
  exists (q : QueueDoc) (m : MsgDoc),
    find (QueueController.spec_pn None "fizbit") (queues w_posted) = Some q
    /\ to_oid (AStr "000003e80000000000000001") = Some (m_id m)
    /\ In m (messages w_posted)
    /\ m_q m = q_id q
    /\ clock_now w_posted < m_e m
    /\ mkMsgView "000003e80000000000000001" 0 10 "hello"%string
       = mkMsgView (str_oid (m_id m))
                   (age_seconds (clock_now w_posted) (m_id m))
                   (m_t m) (m_b m)
    /\ messages w_posted = messages w_posted
    /\ queues w_posted = queues w_posted.
Proof.
  apply (get_returns_stored_message
           w_posted (w' := w_posted) "fizbit"
           (AStr "000003e80000000000000001") None).
  vm_compute. reflexivity.
Defined.









(** ** Renewing a claim *)

(** What a successful [update] did. *)
Lemma update_inv (queue : string) (claim_id : IdArg) (metadata : ClaimMeta)
      (project : option string) (w w' : World) :
  ClaimController.update queue claim_id metadata project w = (Ok tt, w') ->
  exists (q : QueueDoc) (cid : oid),
    let now := clock_now w in
    let ttl := ClaimController.ttl_of metadata in
    let meta := mkClaim (Some cid) (SDate (now + ttl)) (Some ttl) in
    find (QueueController.spec_pn project queue) (queues w) = Some q
    /\ to_oid claim_id = Some cid
    /\ 0 <= ttl
    /\ (exists m0 : MsgDoc,
           In m0 (messages w)
           /\ MessageController.claimed_spec (q_id q) (Some cid) now m0 = true)
    /\ messages w'
       = map (fun m => if ClaimController.outlived (VOid (q_id q)) (now + ttl)
                                                   cid m
                       then set_e_t (now + ttl) ttl m else m)
             (map (fun m => if N.eqb (m_q m) (q_id q)
                               && opt_oid_eqb (c_id (m_c m)) (Some cid)
                            then set_c meta m else m)
                  (messages w))
    /\ queues w' = queues w
    /\ clock_now w <= clock_now w'.
Proof.
  unfold ClaimController.update, ClaimController._get_queue_id. intro H.
  destruct (to_oid claim_id) as [cid |]; [| discriminate H].
  unfold bind at 1 in H. unfold ret at 1 in H.
  unfold bind at 1 in H. unfold utcnow at 1 in H.
  destruct (clock_now w >? clock_now w + ClaimController.ttl_of metadata)
    eqn:Hgt; [discriminate H |].
  unfold bind at 1 in H.
  unfold QueueController.get_id, QueueController._get in H.
  unfold bind at 1 in H. cbn [queues] in H.
  destruct (find (QueueController.spec_pn project queue) (queues w))
    as [q |] eqn:Hq; [| discriminate H].
  unfold ret at 1 in H. unfold bind at 1 in H.
  unfold MessageController.claimed in H.
  unfold bind at 1 in H. unfold ret at 1 in H.
  unfold bind at 1 in H.
  cbn [MessageController.oid_or_ValueError to_oid] in H.
  unfold ret at 1 in H. unfold bind at 1 in H. unfold utcnow at 1 in H.
  unfold bind at 1 in H. unfold iterate at 1 in H.
  cbn [messages] in H. unfold ret at 1 in H.
  match type of H with
  | context [cursor_exec ?c (messages w)] =>
      destruct (cursor_exec c (messages w)) as [| m0 rest] eqn:Hexec
  end; [discriminate H |].
  cbn [map] in H.
  assert (Hm0 : In m0 (messages w)
                /\ MessageController.claimed_spec (q_id q) (Some cid)
                                                  (clock_now w) m0 = true).
  { match type of Hexec with
    | cursor_exec ?c _ = _ =>
        apply (cursor_exec_In c (messages w) m0)
    end.
    rewrite Hexec. now left. }
  revert H. run. intro H. inversion H. clear H.
  exists q, cid. cbn zeta.
  split; [reflexivity |]. split; [reflexivity |].
  split; [rewrite Z.gtb_ltb in Hgt; apply Z.ltb_ge in Hgt; lia |].
  split; [exists m0; exact Hm0 |].
  split; [reflexivity |]. split; [reflexivity |]. simpl. lia.
Qed.

(** What a successful [update] leaves in the store. *)
Lemma update_effect :
  forall (w w' : World) (queue : string) (claim_id : IdArg)
         (metadata : ClaimMeta) (project : option string),
    ClaimController.update queue claim_id metadata project w = (Ok tt, w') ->
    exists (q : QueueDoc) (cid : oid),
      let expires := clock_now w + ClaimController.ttl_of metadata in
      find (QueueController.spec_pn project queue) (queues w) = Some q
      /\ to_oid claim_id = Some cid
      /\ 0 <= ClaimController.ttl_of metadata
      /\ queues w' = queues w
      /\ map m_id (messages w') = map m_id (messages w)
      /\ (forall m : MsgDoc,
             In m (messages w') ->
             m_q m = q_id q -> c_id (m_c m) = Some cid ->
             m_c m = mkClaim (Some cid) (SDate expires)
                             (Some (ClaimController.ttl_of metadata))
             /\ expires <= m_e m)
      /\ Forall2 (fun a b =>
                    ~ (m_q a = q_id q /\ c_id (m_c a) = Some cid) -> b = a)
                 (messages w) (messages w')
      /\ (exists m : MsgDoc,
             In m (messages w')
             /\ m_q m = q_id q /\ c_id (m_c m) = Some cid).
Proof.
  intros w w' queue claim_id metadata project H.
  apply update_inv in H.
  destruct H as [q [cid [Hq [Hcid [Httl [[m0 [Hin0 Hm0]] [Hms [Hqs _]]]]]]]].
  exists q, cid. cbn zeta.
  set (ttl := ClaimController.ttl_of metadata) in *.
  set (expires := clock_now w + ttl) in *.
  set (meta := mkClaim (Some cid) (SDate expires) (Some ttl)) in *.
  set (spec1 := fun m => N.eqb (m_q m) (q_id q)
                         && opt_oid_eqb (c_id (m_c m)) (Some cid)) in *.
  set (g1 := fun m => if spec1 m then set_c meta m else m) in *.
  set (g2 := fun m => if ClaimController.outlived (VOid (q_id q)) expires
                                                  cid m
                      then set_e_t expires ttl m else m) in *.
  change (messages w' = map g2 (map g1 (messages w))) in Hms.
  assert (HG : forall a,
             m_id (g2 (g1 a)) = m_id a
             /\ m_q (g2 (g1 a)) = m_q a
             /\ (if spec1 a
                 then m_c (g2 (g1 a)) = meta /\ expires <= m_e (g2 (g1 a))
                 else g2 (g1 a) = a)).
  { intro a. unfold g1. destruct (spec1 a) eqn:E1.
    - unfold spec1 in E1. apply andb_true_iff in E1.
      destruct E1 as [Eq _].
      unfold g2, ClaimController.outlived, q_is, meta.
      cbn [set_c m_q m_e m_c c_id opt_oid_eqb].
      rewrite Eq, N.eqb_refl, andb_true_r. cbn [andb].
      destruct (m_e a <? expires) eqn:Ee; cbn.
      + repeat split; (reflexivity || lia).
      + apply Z.ltb_ge in Ee. repeat split; (reflexivity || lia).
    - unfold g2, ClaimController.outlived, q_is.
      unfold spec1 in E1.
      destruct (N.eqb (m_q a) (q_id q)); cbn [andb] in *.
      + rewrite E1, andb_false_r. repeat split; reflexivity.
      + repeat split; reflexivity. }
  split; [exact Hq |]. split; [exact Hcid |]. split; [exact Httl |].
  split; [exact Hqs |]. rewrite Hms. split; [| split; [| split]].
  - rewrite !map_map. apply map_ext. intro a. apply HG.
  - intros m Hin Hmq Hmc. rewrite map_map in Hin.
    apply in_map_iff in Hin. destruct Hin as [a [Ha _]]. subst m.
    destruct (HG a) as [_ [Hqa Hcase]].
    destruct (spec1 a) eqn:E1; [exact Hcase |].
    rewrite Hcase in Hmq, Hmc. unfold spec1 in E1.
    rewrite Hmq, Hmc, N.eqb_refl in E1. cbn in E1.
    rewrite N.eqb_refl in E1. discriminate E1.
  - rewrite map_map. clear Hms Hin0.
    induction (messages w) as [| a l IH]; simpl; [constructor |].
    constructor; [| exact IH].
    intro Hno. destruct (HG a) as [_ [_ Hcase]].
    destruct (spec1 a) eqn:E1; [| exact Hcase].
    exfalso. apply Hno. unfold spec1 in E1.
    apply andb_true_iff in E1. destruct E1 as [Eq Ec].
    split; [now apply N.eqb_eq | now apply opt_oid_eqb_eq].
  - exists (g2 (g1 m0)). rewrite map_map.
    split; [apply in_map_iff; exists m0; split; [reflexivity | exact Hin0] |].
    unfold MessageController.claimed_spec in Hm0.
    apply andb_true_iff in Hm0. destruct Hm0 as [Hm0 Hq0].
    apply andb_true_iff in Hm0. destruct Hm0 as [Hc0 _].
    destruct (HG m0) as [_ [Hq1 Hcase]].
    assert (E1 : spec1 m0 = true) by (unfold spec1; now rewrite Hq0, Hc0).
    rewrite E1 in Hcase. destruct Hcase as [Hc1 _].
    split; [rewrite Hq1; now apply N.eqb_eq | now rewrite Hc1].
Qed.



(** X13.  A successful claim [update] had a well-formed claim id, a time
    to live that is not negative and an existing queue.  It neither adds
    nor removes a message; afterwards every message of the queue that
    carries the claim id holds the claim
    [{id, e = now + ttl, t = ttl}] and does not expire before it; every
    other message is untouched in its place. *)
Theorem update_renews_claim :
  forall (w w' : World) (queue : string) (claim_id : IdArg)
         (metadata : ClaimMeta) (project : option string),
    ClaimController.update queue claim_id metadata project w = (Ok tt, w') ->
    exists (q : QueueDoc) (cid : oid),
      let expires := clock_now w + ClaimController.ttl_of metadata in
      find (QueueController.spec_pn project queue) (queues w) = Some q
      /\ to_oid claim_id = Some cid
      /\ 0 <= ClaimController.ttl_of metadata
      /\ queues w' = queues w
      /\ map m_id (messages w') = map m_id (messages w)
      /\ (forall m : MsgDoc,
             In m (messages w') ->
             m_q m = q_id q -> c_id (m_c m) = Some cid ->
             m_c m = mkClaim (Some cid) (SDate expires)
                             (Some (ClaimController.ttl_of metadata))
             /\ expires <= m_e m)
      /\ Forall2 (fun a b =>
                    ~ (m_q a = q_id q /\ c_id (m_c a) = Some cid) -> b = a)
                 (messages w) (messages w').
Proof.
  intros w w' queue claim_id metadata project H.
  apply update_effect in H.
  destruct H as [q [cid [H1 [H2 [H3 [H4 [H5 [H6 [H7 _]]]]]]]]].
  exists q, cid. cbn zeta. repeat (split; [assumption |]). exact H7.
Qed.

Lemma update_renews_claim_witness :
  exists (q : QueueDoc) (cid : oid),
    let w' := snd (ClaimController.update
                     "fizbit" (AOid fizbit_claim) (mkClaimMeta (Some 90))
                     None w_claimed) in
    let expires := clock_now w_claimed
                   + ClaimController.ttl_of (mkClaimMeta (Some 90)) in
    find (QueueController.spec_pn None "fizbit") (queues w_claimed) = Some q
    /\ to_oid (AOid fizbit_claim) = Some cid
    /\ 0 <= ClaimController.ttl_of (mkClaimMeta (Some 90))
    /\ queues w' = queues w_claimed
    /\ map m_id (messages w') = map m_id (messages w_claimed)
    /\ (forall m : MsgDoc,
           In m (messages w') ->
           m_q m = q_id q -> c_id (m_c m) = Some cid ->
           m_c m = mkClaim (Some cid) (SDate expires)
                           (Some (ClaimController.ttl_of
                                    (mkClaimMeta (Some 90))))
           /\ expires <= m_e m)
    /\ Forall2 (fun a b =>
                  ~ (m_q a = q_id q /\ c_id (m_c a) = Some cid) -> b = a)
               (messages w_claimed) (messages w').
Proof.
  apply (update_renews_claim
           w_claimed "fizbit" (AOid fizbit_claim) (mkClaimMeta (Some 90))
           None).
  vm_compute. reflexivity.
Defined.

(** ** Reading a claim *)

(** Claim [get] on an existing queue with a well-formed claim id, step by
    step. *)
Lemma claim_get_eval (queue : string) (claim_id : IdArg)
      (project : option string) (w : World) (q : QueueDoc) (cid : oid) :
  find (QueueController.spec_pn project queue) (queues w) = Some q ->
  to_oid claim_id = Some cid ->
  ClaimController.get queue claim_id project w
  = let now := clock_now w in
    let w2 := snd (utcnow (snd (utcnow w))) in
    let docs :=
      cursor_exec
        (mkCursor (MessageController.claimed_spec (q_id q) (Some cid) now)
                  0 true)
        (messages w) in
    match docs with
    | [] => (Raise ClaimDoesNotExist, w2)
    | d :: _ =>
        match c_t (m_c d) with
        | None => (Raise KeyError, w2)
        | Some t =>
            (Ok (mkClaimView (age_seconds now cid) t
                             (match c_id (m_c d) with
                              | Some o => str_oid o
                              | None => "None"%string
                              end),
                 map (fun msg =>
                        mkMsgView (str_oid (m_id msg))
                                  (age_seconds (clock_now (snd (utcnow w)))
                                               (m_id msg))
                                  (m_t msg) (m_b msg))
                     docs),
             w2)
        end
    end.
Proof.
  intros Hq Hcid.
  unfold ClaimController.get, ClaimController._get_queue_id.
  unfold bind at 1. rewrite (get_id_present _ _ _ Hq).
  unfold bind at 1. unfold utcnow at 1. rewrite Hcid.
  unfold bind at 1. unfold ret at 1. unfold bind at 1.
  unfold MessageController.claimed.
  unfold bind at 1. unfold ret at 1. unfold bind at 1.
  cbn [MessageController.oid_or_ValueError to_oid].
  unfold ret at 1. unfold bind at 1. unfold utcnow at 1.
  unfold bind at 1. unfold iterate at 1. cbn [messages clock_now].
  cbn zeta.
  match goal with
  | |- context [cursor_exec ?c (messages w)] =>
      destruct (cursor_exec c (messages w)) as [| d rest]
  end; [reflexivity |].
  unfold ret at 1. cbn [map MessageController.cv_claim].
  destruct (c_t (m_c d)); [| reflexivity].
  unfold ret. cbn [snd]. rewrite map_map. reflexivity.
Qed.

(** X14.  A renewed claim reads back its new time to live: after a
    successful [update], claim [get] for the same queue and claim id,
    called before the new expiration, succeeds, shows the claim id and
    the time to live given to [update], and lists at least one message. *)
Theorem update_then_get :
  forall (w w' : World) (queue : string) (claim_id : IdArg)
         (metadata : ClaimMeta) (project : option string),
    ClaimController.update queue claim_id metadata project w = (Ok tt, w') ->
    clock_now w' < clock_now w + ClaimController.ttl_of metadata ->
    exists (cid : oid) (view : ClaimView) (msgs : list MsgView),
      to_oid claim_id = Some cid
      /\ fst (ClaimController.get queue claim_id project w')
         = Ok (view, msgs)
      /\ cl_ttl view = ClaimController.ttl_of metadata
      /\ cl_id view = str_oid cid
      /\ msgs <> [].
Proof.
  intros w w' queue claim_id metadata project H Hbefore.
  apply update_effect in H.
  destruct H as [q [cid [Hq [Hcid [_ [Hqs [_ [Hclaim [_ Hcarrier]]]]]]]]].
  cbn zeta in Hclaim.
  destruct Hcarrier as [m0 [Hin0 [Hq0 Hc0]]].
  assert (Hq' : find (QueueController.spec_pn project queue) (queues w')
                = Some q) by now rewrite Hqs.
  rewrite (claim_get_eval queue claim_id project w' Hq' Hcid). cbn zeta.
  set (c := mkCursor (MessageController.claimed_spec (q_id q) (Some cid)
                                                     (clock_now w'))
                     0 true).
  assert (Hsome : In m0 (cursor_exec c (messages w'))).
  { unfold cursor_exec, c. cbn [cur_spec cur_limit cur_sorted apply_limit].
    apply sort_by_In. apply filter_In. split; [exact Hin0 |].
    destruct (Hclaim m0 Hin0 Hq0 Hc0) as [Hmeta _].
    unfold MessageController.claimed_spec. rewrite Hmeta.
    cbn [c_id c_e opt_oid_eqb stamp_gt]. rewrite N.eqb_refl, Hq0, N.eqb_refl.
    cbn [andb]. rewrite andb_true_r. apply Z.gtb_lt. lia. }
  destruct (cursor_exec c (messages w')) as [| d rest] eqn:Hexec;
    [destruct Hsome |].
  assert (Hd : In d (messages w') /\ cur_spec c d = true).
  { apply cursor_exec_In. rewrite Hexec. now left. }
  destruct Hd as [Hind Hspec]. unfold c in Hspec. cbn [cur_spec] in Hspec.
  unfold MessageController.claimed_spec in Hspec.
  apply andb_true_iff in Hspec. destruct Hspec as [Hspec Hqd].
  apply andb_true_iff in Hspec. destruct Hspec as [Hcd _].
  apply N.eqb_eq in Hqd. apply opt_oid_eqb_eq in Hcd.
  destruct (Hclaim d Hind Hqd Hcd) as [Hmeta _]. rewrite Hmeta.
  cbn [c_t c_id fst].
  eexists cid, _, _. split; [exact Hcid |]. split; [reflexivity |].
  split; [reflexivity |]. split; [reflexivity |]. discriminate.
Qed.

Lemma update_then_get_witness :
  exists (cid : oid) (view : ClaimView) (msgs : list MsgView),
    to_oid (AOid fizbit_claim) = Some cid
    /\ fst (ClaimController.get
              "fizbit" (AOid fizbit_claim) None
              (snd (ClaimController.update
                      "fizbit" (AOid fizbit_claim) (mkClaimMeta (Some 90))
                      None w_claimed)))
       = Ok (view, msgs)
    /\ cl_ttl view = ClaimController.ttl_of (mkClaimMeta (Some 90))
    /\ cl_id view = str_oid cid
    /\ msgs <> [].
Proof.
  apply (update_then_get
           w_claimed
           (w' := snd (ClaimController.update
                         "fizbit" (AOid fizbit_claim) (mkClaimMeta (Some 90))
                         None w_claimed))
           "fizbit" (AOid fizbit_claim) (mkClaimMeta (Some 90)) None).
  - vm_compute. reflexivity.
  - vm_compute. reflexivity.
Defined.









(** ** Creating a claim *)

Lemma map_unmatched {A} (spec : A -> bool) (f : A -> A) (l : list A) :
  (forall x, spec x = false) ->
  map (fun x => if spec x then f x else x) l = l.
Proof.
  intro H. induction l as [| a l IH]; simpl; [reflexivity |].
  now rewrite H, IH.
Qed.

(** Claim [create] on an existing queue, step by step. *)
Lemma create_eval (queue : string) (metadata : ClaimMeta)
      (project : option string) (lim : nat) (w : World) (q : QueueDoc) :
  find (QueueController.spec_pn project queue) (queues w) = Some q ->
  ClaimController.create queue metadata project lim w
  = let o := mint (clock_now w) (oid_counter w) in
    let ttl := ClaimController.ttl_of metadata in
    let meta := mkClaim (Some o) (SDate (clock_now w + ttl)) (Some ttl) in
    let w1 := snd (new_ObjectId w) in
    let w2 := snd (utcnow w1) in
    let w3 := snd (utcnow w2) in
    let docs :=
      cursor_exec
        (mkCursor (MessageController.active_spec (q_id q) (clock_now w2)
                                                 None None)
                  lim true)
        (messages w) in
    if (List.length docs =? 0)%nat then (Ok (str_oid o, []), w3)
    else
      let ids := map m_id docs in
      let spec := ClaimController.claimable ids (clock_now w3) in
      let w5 := set_messages
                  (map (fun m => if spec m then set_c meta m else m)
                       (messages w))
                  (snd (utcnow w3)) in
      if negb (List.length (filter spec (messages w)) =? 0)%nat
      then bind (ClaimController.get queue (AOid o) project)
                (fun r => ret (str_oid o, snd r)) w5
      else (Ok (str_oid o, []), w5).
Proof.
  intro Hq.
  unfold ClaimController.create, ClaimController._get_queue_id.
  unfold bind at 1. rewrite (get_id_present _ _ _ Hq).
  unfold bind at 1. unfold new_ObjectId at 1.
  unfold bind at 1. unfold utcnow at 1.
  unfold bind at 1. unfold MessageController.active.
  unfold bind at 1. unfold utcnow at 1.
  unfold bind at 1.
  cbn [MessageController.oid_or_ValueError to_oid
       MessageController.fields_rejected truthy_id negb andb truthy_str].
  unfold ret at 1. unfold bind at 1. unfold ret at 1. unfold ret at 1.
  unfold bind at 1. unfold count at 1. unfold sort_id, limit.
  cbn [cur_spec cur_limit cur_sorted messages clock_now snd queues ticks
       oid_counter new_ObjectId utcnow].
  cbn zeta.
  match goal with
  | |- context [(List.length ?d =? 0)%nat] =>
      destruct (List.length d =? 0)%nat
  end; [reflexivity |].
  unfold bind at 1. unfold iterate at 1.
  unfold bind at 1. unfold utcnow at 1.
  unfold bind at 1. unfold col_update at 1.
  unfold bind at 1. unfold col_update at 1.
  cbn [messages set_messages clock_now queues ticks oid_counter].
  rewrite (map_unmatched
             (ClaimController.outlived
                (VStr queue)
                (clock_now w + ClaimController.ttl_of metadata)
                (mint (clock_now w) (oid_counter w))));
    [| reflexivity].
  match goal with
  | |- context [negb ?b] => destruct (negb b)
  end; reflexivity.
Qed.



Lemma Forall2_map_self {A} (R : A -> A -> Prop) (g : A -> A) (l : list A) :
  (forall a, R a (g a)) -> Forall2 R l (map g l).
Proof.
  intro H. induction l as [| a l IH]; simpl; [constructor |].
  constructor; [apply H | exact IH].
Qed.

Lemma Forall2_self {A} (R : A -> A -> Prop) (l : list A) :
  (forall a, R a a) -> Forall2 R l l.
Proof.
  intro H. induction l as [| a l IH]; [constructor |].
  constructor; [apply H | exact IH].
Qed.



(** X18.  What [create] may touch.  On an existing queue and with a
    positive limit, there are at most [limit] candidate ids, each the id
    of a stored message of the queue; every message is afterwards, in its
    place, either as it was or the same message with its claim field
    replaced by the new claim [{id, e = now + ttl, t = ttl}], and the
    latter only for messages whose id is a candidate.  No message is
    added or removed, and no field but the claim is written. *)
Theorem create_touches_only_candidates :
  forall (w : World) (queue : string) (metadata : ClaimMeta)
         (project : option string) (lim : nat) (q : QueueDoc),
    find (QueueController.spec_pn project queue) (queues w) = Some q ->
    (0 < lim)%nat ->
    let out := ClaimController.create queue metadata project lim w in
    let ttl := ClaimController.ttl_of metadata in
    let meta := mkClaim (Some (mint (clock_now w) (oid_counter w)))
                        (SDate (clock_now w + ttl)) (Some ttl) in
    exists ids : list oid,
      (List.length ids <= lim)%nat
      /\ (forall i : oid,
             In i ids ->
             exists m : MsgDoc,
               In m (messages w) /\ m_id m = i /\ m_q m = q_id q)
      /\ Forall2 (fun a b => b = a \/ (In (m_id a) ids /\ b = set_c meta a))
                 (messages w) (messages (snd out)).
Proof.
  intros w queue metadata project lim q Hq Hlim out ttl meta.
  unfold out. rewrite (create_eval queue metadata project lim w Hq).
  cbn zeta. fold ttl. fold meta.
  set (cur := mkCursor (MessageController.active_spec
                          (q_id q) (clock_now (snd (utcnow (snd (new_ObjectId
                                                                  w)))))
                          None None)
                       lim true).
  set (docs := cursor_exec cur (messages w)).
  exists (map m_id docs).
  split; [| split].
  - rewrite length_map. unfold docs. apply (cursor_exec_bounded cur).
    exact Hlim.
  - intros i Hi. apply in_map_iff in Hi. destruct Hi as [m [Hm Hin]].
    unfold docs in Hin. apply cursor_exec_In in Hin.
    destruct Hin as [Hin Hspec]. exists m.
    split; [exact Hin |]. split; [exact Hm |].
    unfold cur in Hspec. cbn [cur_spec] in Hspec.
    unfold MessageController.active_spec in Hspec.
    repeat (apply andb_true_iff in Hspec; destruct Hspec as [Hspec ?]).
    now apply N.eqb_eq.
  - destruct (List.length docs =? 0)%nat.
    + cbn [snd]. cbn [messages utcnow new_ObjectId snd].
      apply Forall2_self. intro a. now left.
    + set (spec := ClaimController.claimable
                     (map m_id docs)
                     (clock_now (snd (utcnow (snd (utcnow (snd (new_ObjectId
                                                              w)))))))).
      set (w5 := set_messages
                   (map (fun m => if spec m then set_c meta m else m)
                        (messages w))
                   (snd (utcnow (snd (utcnow (snd (utcnow (snd (new_ObjectId
                                                            w))))))))).
      assert (Hm5 : forall out5 : result (string * list MsgView) * World,
                 messages (snd out5) = messages w5 ->
                 Forall2 (fun a b => b = a
                                     \/ (In (m_id a) (map m_id docs)
                                         /\ b = set_c meta a))
                         (messages w) (messages (snd out5))).
      { intros out5 E. rewrite E. unfold w5. cbn [messages set_messages].
        apply Forall2_map_self. intro a.
        destruct (spec a) eqn:Es; [| now left].
        right. split; [| reflexivity].
        unfold spec, ClaimController.claimable in Es.
        apply andb_true_iff in Es. destruct Es as [Es _].
        apply existsb_exists in Es. destruct Es as [i [Hi Ei]].
        apply N.eqb_eq in Ei. now rewrite Ei. }
      destruct (negb (List.length (filter spec (messages w)) =? 0)%nat).
      * apply Hm5.
        assert (Hquiet :
                 quiet (bind (ClaimController.get
                                queue
                                (AOid (mint (clock_now w) (oid_counter w)))
                                project)
                             (fun r => ret (str_oid (mint (clock_now w)
                                                          (oid_counter w)),
                                            snd r)))).
        { apply quiet_bind; [apply quiet_claim_get | intro r; apply quiet_ret]. }
        apply (Hquiet w5).
      * apply Hm5. reflexivity.
Qed.

Lemma create_touches_only_candidates_witness :
  exists ids : list oid,
    (List.length ids <= 1)%nat
    /\ (forall i : oid,
           In i ids ->
           exists m : MsgDoc,
             In m (messages w_two_posted)
             /\ m_id m = i /\ m_q m = q_id fizbit_queue)
    /\ Forall2 (fun a b =>
                  b = a
                  \/ (In (m_id a) ids
                      /\ b = set_c (mkClaim (Some first_claim) (SDate 1060)
                                            (Some 60)) a))
               (messages w_two_posted) (messages w_first_claim).
Proof.
  apply (@create_touches_only_candidates
           w_two_posted "fizbit" (mkClaimMeta (Some 60)) None 1%nat
           fizbit_queue).
  - reflexivity.
  - lia.
Defined.



(** ** Counting the messages of a queue *)

Lemma disjoint_counts {A} (f g h : A -> bool) (l : list A) :
  (forall x, f x = true -> g x = false) ->
  (forall x, f x = true -> h x = true) ->
  (forall x, g x = true -> h x = true) ->
  (List.length (filter f l) + List.length (filter g l)
   <= List.length (filter h l))%nat.
Proof.
  intros Hfg Hf Hg. induction l as [| a l IH]; simpl; [lia |].
  destruct (f a) eqn:Ef.
  - rewrite (Hfg a Ef), (Hf a Ef). simpl. lia.
  - destruct (g a) eqn:Eg.
    + rewrite (Hg a Eg). simpl. lia.
    + destruct (h a); simpl; lia.
Qed.

(** X20.  [stats] on an existing queue succeeds and writes nothing; it
    reports no action, and a message is never counted both as free and as
    claimed: the two counts add up to no more than the number of stored
    messages of the queue. *)
Theorem stats_counts_are_disjoint :
  forall (w : World) (name : string) (project : option string)
         (q : QueueDoc),
    find (QueueController.spec_pn project name) (queues w) = Some q ->
    exists st : Stats,
      fst (queue_stats name project w) = Ok st
      /\ st_actions st = 0
      /\ (st_claimed st + st_free st
          <= List.length (filter (fun m => N.eqb (m_q m) (q_id q))
                                 (messages w)))%nat
      /\ messages (snd (queue_stats name project w)) = messages w.
Proof.
  intros w name project q Hq.
  set (now1 := clock_now w).
  set (now2 := clock_now (snd (utcnow w))).
  set (A := MessageController.active_spec (q_id q) now1 None None).
  set (C := MessageController.claimed_spec (q_id q) None now2).
  assert (E : queue_stats name project w
              = (Ok (mkStats 0
                             (List.length
                                (cursor_exec (mkCursor C 0 true)
                                             (messages w)))
                             (List.length (filter A (messages w)))),
                 snd (utcnow (snd (utcnow (snd (utcnow w))))))).
  { unfold queue_stats. unfold bind at 1.
    rewrite (get_id_present _ _ _ Hq).
    unfold bind at 1. unfold MessageController.active.
    unfold bind at 1. unfold utcnow at 1. unfold bind at 1.
    cbn [MessageController.oid_or_ValueError to_oid
         MessageController.fields_rejected truthy_id negb andb truthy_str].
    unfold ret at 1. unfold bind at 1. unfold ret at 1. unfold ret at 1.
    unfold bind at 1. unfold MessageController.claimed.
    unfold bind at 1. unfold utcnow at 1. unfold bind at 1.
    cbn [MessageController.oid_or_ValueError to_oid].
    unfold ret at 1. unfold bind at 1. unfold utcnow at 1.
    unfold bind at 1. unfold iterate at 1. unfold ret at 1.
    unfold bind at 1. unfold count at 1. unfold ret.
    cbn [fst snd messages clock_now cur_spec]. rewrite length_map.
    reflexivity. }
  rewrite E. cbn [fst snd].
  eexists. split; [reflexivity |]. cbn [st_actions st_claimed st_free].
  split; [reflexivity |]. split; [| reflexivity].
  unfold cursor_exec.
  cbn [cur_spec cur_limit cur_sorted apply_limit].
  rewrite sort_by_length, Nat.add_comm.
  apply disjoint_counts.
  - intros m Ha. unfold A, MessageController.active_spec in Ha.
    unfold C, MessageController.claimed_spec.
    repeat (apply andb_true_iff in Ha; destruct Ha as [Ha ?]).
    unfold stamp_lte, stamp_gt in *.
    destruct (c_e (m_c m)) as [d | i]; [| discriminate].
    assert (Hd : (d >? now2) = false).
    { destruct (d >? now2) eqn:G; [| reflexivity].
      apply Z.gtb_lt in G.
      match goal with
      | Hle : (d <=? _) = true |- _ => apply Z.leb_le in Hle
      end.
      unfold now2, now1 in *. simpl in G. lia. }
    rewrite Hd. now rewrite andb_false_r.
  - intros m Ha. unfold A, MessageController.active_spec in Ha.
    repeat (apply andb_true_iff in Ha; destruct Ha as [Ha ?]).
    exact Ha.
  - intros m Hc. unfold C, MessageController.claimed_spec in Hc.
    apply andb_true_iff in Hc. destruct Hc as [_ Hc]. exact Hc.
Qed.

Lemma stats_counts_are_disjoint_witness :
  exists st : Stats,
    fst (queue_stats "fizbit" None w_claimed) = Ok st
    /\ st_actions st = 0
    /\ (st_claimed st + st_free st
        <= List.length (filter (fun m => N.eqb (m_q m) (q_id fizbit_queue))
                               (messages w_claimed)))%nat
    /\ messages (snd (queue_stats "fizbit" None w_claimed))
       = messages w_claimed.
Proof.
  apply (stats_counts_are_disjoint w_claimed "fizbit" None
                                   (q := fizbit_queue)).
  reflexivity.
Defined.

(** ** Listing the queues of a project *)

Section TotalSort.

Variable A : Type.
Variable leb : A -> A -> bool.
Hypothesis leb_total : forall a b, leb a b = true \/ leb b a = true.

Lemma insert_by_HdRel_total (x a : A) (l : list A) :
  leb a x = true ->
  HdRel (fun u v => leb u v = true) a l ->
  HdRel (fun u v => leb u v = true) a (insert_by leb x l).
Proof.
  intros Hax Hal. destruct l as [| y l]; simpl.
  - constructor. exact Hax.
  - destruct (leb x y); constructor; [exact Hax | now inversion Hal].
Qed.

Lemma insert_by_Sorted_total (x : A) (l : list A) :
  Sorted (fun u v => leb u v = true) l ->
  Sorted (fun u v => leb u v = true) (insert_by leb x l).
Proof.
  induction l as [| y l IH]; simpl; intro H.
  - repeat constructor.
  - inversion H as [| ? ? Hl Hy]; subst.
    destruct (leb x y) eqn:E.
    + constructor; [exact H |]. constructor. exact E.
    + constructor; [now apply IH |].
      apply insert_by_HdRel_total; [| exact Hy].
      destruct (leb_total x y) as [T | T]; [congruence | exact T].
Qed.

Lemma sort_by_Sorted_total (l : list A) :
  Sorted (fun u v => leb u v = true) (sort_by leb l).
Proof.
  induction l as [| x l IH]; simpl; [constructor |].
  now apply insert_by_Sorted_total.
Qed.

End TotalSort.

Lemma Sorted_firstn {A} (R : A -> A -> Prop) (n : nat) (l : list A) :
  Sorted R l -> Sorted R (firstn n l).
Proof.
  revert l. induction n as [| n IH]; intros l H; simpl; [constructor |].
  destruct l as [| x l]; [constructor |].
  inversion H as [| ? ? Hl Hx]; subst.
  constructor; [now apply IH |].
  destruct n; simpl; [constructor |].
  destruct l as [| y l]; [constructor |].
  inversion Hx; subst. now constructor.
Qed.

Lemma opt_string_eqb_eq (a b : option string) :
  opt_string_eqb a b = true -> a = b.
Proof.
  destruct a, b; simpl; intro H; try discriminate; [| reflexivity].
  apply String.eqb_eq in H. now subst.
Qed.

(** X21.  The enumeration behind queue [list] yields queues of the store
    that belong to the project and, when a non-empty marker is given,
    have a name strictly after the marker; it yields them in ascending
    order of name, and no more than a positive limit allows. *)
Theorem queue_list_yields :
  forall (qs : list QueueDoc) (project : option string)
         (marker : option string) (lim : nat),
    let cursor := QueueController.list_cursor project marker lim qs in
    Sorted (fun a b => String.leb (q_n a) (q_n b) = true) cursor
    /\ (forall qd : QueueDoc,
           In qd cursor ->
           In qd qs
           /\ q_p qd = project
           /\ (forall mk : string,
                  marker = Some mk -> mk <> EmptyString ->
                  String.ltb mk (q_n qd) = true))
    /\ ((0 < lim)%nat -> (List.length cursor <= lim)%nat).
Proof.
  intros qs project marker lim cursor. unfold cursor.
  unfold QueueController.list_cursor. split; [| split].
  - assert (H : Sorted (fun a b => String.leb (q_n a) (q_n b) = true)
                       (sort_by QueueController.name_leb
                                (filter
                                   (fun q =>
                                      opt_string_eqb (q_p q) project
                                      && (if truthy_str marker
                                          then match marker with
                                               | Some mk =>
                                                   String.ltb mk (q_n q)
                                               | None => true
                                               end
                                          else true))
                                   qs))).
    { apply (sort_by_Sorted_total QueueController.name_leb).
      intros a b. apply String.leb_total. }
    unfold apply_limit. destruct lim; [exact H |].
    now apply Sorted_firstn.
  - intros qd Hin. apply apply_limit_subset in Hin.
    apply sort_by_In in Hin. apply filter_In in Hin.
    destruct Hin as [Hin Hspec].
    apply andb_true_iff in Hspec. destruct Hspec as [Hp Hm].
    split; [exact Hin |]. split; [now apply opt_string_eqb_eq |].
    intros mk Hmk Hne. subst marker.
    destruct mk; [contradiction | exact Hm].
  - intro Hlim. unfold apply_limit. destruct lim; [lia |].
    apply firstn_le_length.
Qed.

Lemma normalizer_names (detailed : bool) (records : list QueueDoc)
      (slot : option string) :
  map QueueController.name
      (fst (QueueController.normalizer detailed records slot))
  = map q_n records
  /\ map QueueController.metadata
         (fst (QueueController.normalizer detailed records slot))
     = map (fun r => if detailed then Some (q_m r) else None) records
  /\ snd (QueueController.normalizer detailed records slot)
     = last (map (fun r => Some (q_n r)) records) slot.
Proof.
  revert slot. induction records as [| r rs IH]; intro slot;
    [repeat split |].
  simpl QueueController.normalizer.
  destruct (IH (Some (q_n r))) as [H1 [H2 H3]].
  destruct (QueueController.normalizer detailed rs (Some (q_n r)))
    as [vs slot'].
  cbn [fst snd] in *. cbn [map QueueController.name QueueController.metadata].
  rewrite H1, H2, H3. repeat split.
  destruct rs as [| r2 rs]; [reflexivity |].
  change (last (map (fun r => Some (q_n r)) (r2 :: rs)) (Some (q_n r))
          = last (map (fun r => Some (q_n r)) (r2 :: rs)) slot).
  apply last_default.
Qed.

(** X22.  When a caller of queue [list] consumes [k] queues and the
    generator then hands out a marker, the world is as it was, at least
    one queue was consumed, the summaries are those of the first [k]
    queues of the enumeration in order, with their metadata exactly when
    [detailed] is set, and the marker is the name of the last queue
    consumed. *)
Theorem queue_list_marker_is_last_name :
  forall (w w' : World) (project : option string) (marker : option string)
         (lim : nat) (detailed : bool) (k : nat)
         (vs : list QueueController.QueueView) (mk : string),
    QueueController.list_ project marker lim detailed k w = (Ok (vs, mk), w') ->
    let consumed :=
      firstn k (QueueController.list_cursor project marker lim (queues w)) in
    w' = w
    /\ vs <> []
    /\ map QueueController.name vs = map q_n consumed
    /\ map QueueController.metadata vs
       = map (fun r => if detailed then Some (q_m r) else None) consumed
    /\ mk = last (map QueueController.name vs) EmptyString.
Proof.
  intros w w' project marker lim detailed k vs mk H consumed.
  unfold QueueController.list_ in H. fold consumed in H.
  destruct (normalizer_names detailed consumed None) as [H1 [H2 H3]].
  destruct (QueueController.normalizer detailed consumed None)
    as [vs0 slot].
  cbn [fst snd] in *.
  destruct slot as [n |]; cbn in H; [| discriminate H].
  inversion H. subst vs0 n w'. clear H.
  split; [reflexivity |]. split; [| split; [exact H1 | split; [exact H2 |]]].
  - intro E. subst vs. destruct consumed; [discriminate H3 | discriminate H1].
  - rewrite H1. symmetry.
    apply (last_of_somes q_n (fun s : string => s)). now symmetry.
Qed.

Lemma queue_list_marker_is_last_name_witness :
  w_queue = w_queue
  /\ [QueueController.mkQueueView "fizbit" (Some "{}"%string)] <> []
  /\ map QueueController.name
         [QueueController.mkQueueView "fizbit" (Some "{}"%string)]
     = map q_n (firstn 3 (QueueController.list_cursor None None 10
                                                      (queues w_queue)))
  /\ map QueueController.metadata
         [QueueController.mkQueueView "fizbit" (Some "{}"%string)]
     = map (fun r => if true then Some (q_m r) else None)
           (firstn 3 (QueueController.list_cursor None None 10
                                                  (queues w_queue)))
  /\ "fizbit"%string
     = last (map QueueController.name
                 [QueueController.mkQueueView "fizbit" (Some "{}"%string)])
            EmptyString.
Proof.
  apply (queue_list_marker_is_last_name
           w_queue (w' := w_queue) None None 10 true 3).
  vm_compute. reflexivity.
Defined.
